(** * DisplaxTouch: a shallow embedding of the Displax touch protocol engine

    The development follows [src/DisplaxTouch.h] and [src/DisplaxTouch.cpp].

    Modelling choices.
    - Bytes, 16/32-bit words and clock readings are [Z]; every narrowing
      conversion of the source is written out ([uint8], [uint16], [uint32],
      [ulong], [int32]).
    - Array indices and element counts ([size_t], and the [uint8_t] counters
      that are bounded by an array capacity) are [nat]; none of them can wrap,
      because each is guarded by a capacity test before it is incremented.
    - The fixed-capacity arrays ([rxBuffer], [touches], [listeners],
      [listenerIds]) are lists that keep their full length; the fill counters
      say which prefix is live, exactly as in the class.  Stale cells beyond
      the counter stay in the model.
    - [Stream&] is the transport: a queue of bytes waiting to be read and the
      list of bytes written so far.
    - [millis()] is the clock collaborator: the reading is an argument of
      [begin] and [loop] (one reading per call).
    - Callbacks are opaque handles ([nat]); an empty [std::function] is
      [None].  Every invocation of a callback is appended to [trace], so the
      order and the arguments of notifications are observable. *)

From Stdlib Require Import ZArith String List Bool Lia.
From stdpp Require Import base list sorting.
Import ListNotations.

Local Open Scope string_scope.
Local Open Scope Z_scope.

(** ** Data model (DisplaxTouch.h) *)

Module TouchPoint.
Record t : Type := mk {
  id : Z;
  x : Z;
  y : Z;
  width : Z;
  height : Z;
  pressure : Z;
  frameWidth : Z;
  frameHeight : Z;
  active : bool
}.
(* value-initialised element of [touches[MAX_TOUCHES] = {}] *)
Definition zero : t := mk 0 0 0 0 0 0 0 0 false.
End TouchPoint.

Inductive TouchLogLevel : Type := Info | Warn.

Inductive TouchState : Type :=
| DISCONNECTED
| INITIALIZING
| INITIALIZATION_FAILED
| CONNECTED
| SYNCHRONIZING
| SYNCHRONIZED.

Definition TouchState_eqb (a b : TouchState) : bool :=
  match a, b with
  | DISCONNECTED, DISCONNECTED
  | INITIALIZING, INITIALIZING
  | INITIALIZATION_FAILED, INITIALIZATION_FAILED
  | CONNECTED, CONNECTED
  | SYNCHRONIZING, SYNCHRONIZING
  | SYNCHRONIZED, SYNCHRONIZED => true
  | _, _ => false
  end.

#[global] Instance TouchState_eq_dec : EqDecision TouchState.
Proof. solve_decision. Defined.

Inductive Command : Type :=
| RESET
| GET_HID_DESCRIPTOR
| GET_HID_REPORT_DESCRIPTION
| GET_FRAME_SIZE
| TOUCH_REPORT_ID
| ENABLE_REPORTING
| DISABLE_REPORTING
| RESET_RESPONSE
| DISABLE_USB_REPORTING
| ENABLE_USB_REPORTING.

(* enum class Command : uint16_t *)
Definition commandValue (c : Command) : Z :=
  match c with
  | RESET => 0x0000
  | GET_HID_DESCRIPTOR => 0x0001
  | GET_HID_REPORT_DESCRIPTION => 0x0002
  | GET_FRAME_SIZE => 0x0003
  | TOUCH_REPORT_ID => 0x0004
  | ENABLE_REPORTING => 0x0005
  | DISABLE_REPORTING => 0x0006
  | RESET_RESPONSE => 0x226E
  | DISABLE_USB_REPORTING => 0xFF00
  | ENABLE_USB_REPORTING => 0xFF01
  end.

(** Constants of the class. *)
Definition RX_BUFFER_SIZE : nat := 2048.
Definition TOUCH_REPORT_SIZE : nat := 72.
Definition TOUCH_CRC_SIZE : nat := 4.
Definition GET_HID_DESCRIPTION_SIZE : nat := 32.
Definition GET_HID_REPORT_DESCRIPTION_SIZE : nat := 708.
Definition GET_FRAME_SIZE_SIZE : nat := 6.
Definition TOUCH_PAYLOAD_SIZE : Z := 64.
Definition MAX_TOUCH_CONTACTS : nat := 6.
Definition MAX_TOUCHES : nat := 6.
Definition MAX_LISTENERS : nat := 4.
Definition INITIALIZATION_TIMEOUT_MS : Z := 1000.

Definition CRC32_TABLE : list Z :=
  [ 0x00000000; 0x04C11DB7; 0x09823B6E; 0x0D4326D9;
    0x130476DC; 0x17C56B6B; 0x1A864DB2; 0x1E475005;
    0x2608EDB8; 0x22C9F00F; 0x2F8AD6D6; 0x2B4BCB61;
    0x350C9B64; 0x31CD86D3; 0x3C8EA00A; 0x384FBDBD ].

(** Fixed-width conversions. *)
Definition uint8 (v : Z) : Z := v mod 2 ^ 8.
Definition uint16 (v : Z) : Z := v mod 2 ^ 16.
Definition uint32 (v : Z) : Z := v mod 2 ^ 32.
(* [unsigned long] of the Arduino targets: 32 bits *)
Definition ulong (v : Z) : Z := v mod 2 ^ 32.
Definition INT_MAX : Z := 2 ^ 31 - 1.
(* [int]: 32 bits, two's complement.  Signed overflow is undefined in C++;
   the wrap-around below is what the targets' compilers produce. *)
Definition int32 (v : Z) : Z := (v + 2 ^ 31) mod 2 ^ 32 - 2 ^ 31.

(** Callbacks: a handle names the closure, [None] is the empty function. *)
Abbreviation TouchCallback := (option nat) (only parsing).
Abbreviation TouchLogCallback := (option nat) (only parsing).
Abbreviation StateChangeCallback := (option nat) (only parsing).

Inductive LogArg : Type :=
| ArgNum (v : Z)
| ArgStr (v : string).

(** Observable effects: each invocation of a consumer callback. *)
Inductive Event : Type :=
| StateChanged (cb : nat) (newState previousState : TouchState)
| Logged (cb : nat) (level : TouchLogLevel) (format : string) (args : list LogArg)
| TouchesDelivered (cb : TouchCallback) (touches : list TouchPoint.t) (count : nat).

(** The transport collaborator. *)
Module Stream.
Record t : Type := mk {
  incoming : list Z;   (* bytes the transport holds for [read()] *)
  outgoing : list Z    (* bytes passed to [write()] so far *)
}.
Definition available (st : t) : bool :=
  match incoming st with [] => false | _ :: _ => true end.
(* [int Stream::read()]: the next byte, or -1 when nothing is queued *)
Definition read (st : t) : Z * t :=
  match incoming st with
  | [] => (-1, st)
  | b :: rest => (b, mk rest (outgoing st))
  end.
Definition write (bytes : list Z) (st : t) : t :=
  mk (incoming st) (outgoing st ++ bytes).
(* bytes delivered by the sensor while the engine is not running *)
Definition arrive (bytes : list Z) (st : t) : t :=
  mk (incoming st ++ bytes) (outgoing st).
End Stream.

Record DisplaxTouch : Type := mkDisplaxTouch {
  stream : Stream.t;
  state : TouchState;
  rxBuffer : list Z;
  rxBufferSize : nat;
  touches : list TouchPoint.t;
  touchCount : nat;
  frameWidth : Z;
  frameHeight : Z;
  listeners : list TouchCallback;
  listenerCount : nat;
  listenerIds : list Z;
  nextListenerId : Z;
  stateChangeCallback : StateChangeCallback;
  logCallback : TouchLogCallback;
  initializingStartTimeMs : Z;
  scanTime : Z;
  trace : list Event
}.

(** Field updates. *)
Definition with_stream (v : Stream.t) (s : DisplaxTouch) : DisplaxTouch :=
  mkDisplaxTouch v (state s) (rxBuffer s) (rxBufferSize s) (touches s) (touchCount s)
    (frameWidth s) (frameHeight s) (listeners s) (listenerCount s) (listenerIds s)
    (nextListenerId s) (stateChangeCallback s) (logCallback s)
    (initializingStartTimeMs s) (scanTime s) (trace s).
Definition with_state (v : TouchState) (s : DisplaxTouch) : DisplaxTouch :=
  mkDisplaxTouch (stream s) v (rxBuffer s) (rxBufferSize s) (touches s) (touchCount s)
    (frameWidth s) (frameHeight s) (listeners s) (listenerCount s) (listenerIds s)
    (nextListenerId s) (stateChangeCallback s) (logCallback s)
    (initializingStartTimeMs s) (scanTime s) (trace s).
Definition with_rxBuffer (v : list Z) (s : DisplaxTouch) : DisplaxTouch :=
  mkDisplaxTouch (stream s) (state s) v (rxBufferSize s) (touches s) (touchCount s)
    (frameWidth s) (frameHeight s) (listeners s) (listenerCount s) (listenerIds s)
    (nextListenerId s) (stateChangeCallback s) (logCallback s)
    (initializingStartTimeMs s) (scanTime s) (trace s).
Definition with_rxBufferSize (v : nat) (s : DisplaxTouch) : DisplaxTouch :=
  mkDisplaxTouch (stream s) (state s) (rxBuffer s) v (touches s) (touchCount s)
    (frameWidth s) (frameHeight s) (listeners s) (listenerCount s) (listenerIds s)
    (nextListenerId s) (stateChangeCallback s) (logCallback s)
    (initializingStartTimeMs s) (scanTime s) (trace s).
Definition with_touches (v : list TouchPoint.t) (s : DisplaxTouch) : DisplaxTouch :=
  mkDisplaxTouch (stream s) (state s) (rxBuffer s) (rxBufferSize s) v (touchCount s)
    (frameWidth s) (frameHeight s) (listeners s) (listenerCount s) (listenerIds s)
    (nextListenerId s) (stateChangeCallback s) (logCallback s)
    (initializingStartTimeMs s) (scanTime s) (trace s).
Definition with_touchCount (v : nat) (s : DisplaxTouch) : DisplaxTouch :=
  mkDisplaxTouch (stream s) (state s) (rxBuffer s) (rxBufferSize s) (touches s) v
    (frameWidth s) (frameHeight s) (listeners s) (listenerCount s) (listenerIds s)
    (nextListenerId s) (stateChangeCallback s) (logCallback s)
    (initializingStartTimeMs s) (scanTime s) (trace s).
Definition with_frameSize (w h : Z) (s : DisplaxTouch) : DisplaxTouch :=
  mkDisplaxTouch (stream s) (state s) (rxBuffer s) (rxBufferSize s) (touches s) (touchCount s)
    w h (listeners s) (listenerCount s) (listenerIds s)
    (nextListenerId s) (stateChangeCallback s) (logCallback s)
    (initializingStartTimeMs s) (scanTime s) (trace s).
Definition with_registry (ls : list TouchCallback) (n : nat) (ids : list Z) (next : Z)
    (s : DisplaxTouch) : DisplaxTouch :=
  mkDisplaxTouch (stream s) (state s) (rxBuffer s) (rxBufferSize s) (touches s) (touchCount s)
    (frameWidth s) (frameHeight s) ls n ids next (stateChangeCallback s) (logCallback s)
    (initializingStartTimeMs s) (scanTime s) (trace s).
Definition with_stateChangeCallback (v : StateChangeCallback) (s : DisplaxTouch) : DisplaxTouch :=
  mkDisplaxTouch (stream s) (state s) (rxBuffer s) (rxBufferSize s) (touches s) (touchCount s)
    (frameWidth s) (frameHeight s) (listeners s) (listenerCount s) (listenerIds s)
    (nextListenerId s) v (logCallback s)
    (initializingStartTimeMs s) (scanTime s) (trace s).
Definition with_logCallback (v : TouchLogCallback) (s : DisplaxTouch) : DisplaxTouch :=
  mkDisplaxTouch (stream s) (state s) (rxBuffer s) (rxBufferSize s) (touches s) (touchCount s)
    (frameWidth s) (frameHeight s) (listeners s) (listenerCount s) (listenerIds s)
    (nextListenerId s) (stateChangeCallback s) v
    (initializingStartTimeMs s) (scanTime s) (trace s).
Definition with_initializingStartTimeMs (v : Z) (s : DisplaxTouch) : DisplaxTouch :=
  mkDisplaxTouch (stream s) (state s) (rxBuffer s) (rxBufferSize s) (touches s) (touchCount s)
    (frameWidth s) (frameHeight s) (listeners s) (listenerCount s) (listenerIds s)
    (nextListenerId s) (stateChangeCallback s) (logCallback s)
    v (scanTime s) (trace s).
Definition with_scanTime (v : Z) (s : DisplaxTouch) : DisplaxTouch :=
  mkDisplaxTouch (stream s) (state s) (rxBuffer s) (rxBufferSize s) (touches s) (touchCount s)
    (frameWidth s) (frameHeight s) (listeners s) (listenerCount s) (listenerIds s)
    (nextListenerId s) (stateChangeCallback s) (logCallback s)
    (initializingStartTimeMs s) v (trace s).
Definition with_trace (v : list Event) (s : DisplaxTouch) : DisplaxTouch :=
  mkDisplaxTouch (stream s) (state s) (rxBuffer s) (rxBufferSize s) (touches s) (touchCount s)
    (frameWidth s) (frameHeight s) (listeners s) (listenerCount s) (listenerIds s)
    (nextListenerId s) (stateChangeCallback s) (logCallback s)
    (initializingStartTimeMs s) (scanTime s) v.
(* a callback is invoked *)
Definition emit (e : Event) (s : DisplaxTouch) : DisplaxTouch :=
  with_trace (trace s ++ [e]) s.

(** [DisplaxTouch::DisplaxTouch(Stream&)] with the in-class initialisers. *)
Definition construct (st : Stream.t) : DisplaxTouch :=
  mkDisplaxTouch st DISCONNECTED (replicate RX_BUFFER_SIZE 0) 0%nat
    (replicate MAX_TOUCHES TouchPoint.zero) 0%nat 1050 650
    (replicate MAX_LISTENERS None) 0%nat (replicate MAX_LISTENERS 0) 0
    None None 0 0 [].

(** [data[i]] on a byte array. *)
Definition byteAt (data : list Z) (i : nat) : Z := default 0 (data !! i).

(** The live part of the receive buffer. *)
Definition buffered (s : DisplaxTouch) : list Z := take (rxBufferSize s) (rxBuffer s).

(** ** Names used in diagnostics *)

Definition getCommandName (c : Command) : string :=
  match c with
  | RESET => "RESET"
  | GET_HID_DESCRIPTOR => "GET_HID_DESCRIPTOR"
  | GET_HID_REPORT_DESCRIPTION => "GET_HID_REPORT_DESCRIPTION"
  | GET_FRAME_SIZE => "GET_FRAME_SIZE"
  | TOUCH_REPORT_ID => "TOUCH_REPORT_ID"
  | ENABLE_REPORTING => "ENABLE_REPORTING"
  | DISABLE_REPORTING => "DISABLE_REPORTING"
  | RESET_RESPONSE => "RESET_RESPONSE"
  | DISABLE_USB_REPORTING => "DISABLE_USB_REPORTING"
  | ENABLE_USB_REPORTING => "ENABLE_USB_REPORTING"
  end.

Definition getStateName (st : TouchState) : string :=
  match st with
  | DISCONNECTED => "DISCONNECTED"
  | INITIALIZING => "INITIALIZING"
  | CONNECTED => "CONNECTED"
  | INITIALIZATION_FAILED => "INITIALIZATION_FAILED"
  | SYNCHRONIZED => "SYNCHRONIZED"
  | SYNCHRONIZING => "SYNCHRONIZING"
  end.

(** ** Logging.  The message is kept as format string and arguments; the
    [vsnprintf] rendering into the 128-byte buffer is not modelled. *)

Definition log (format : string) (args : list LogArg) (s : DisplaxTouch) : DisplaxTouch :=
  match logCallback s with
  | None => s
  | Some cb => emit (Logged cb Info format args) s
  end.

Definition warn (format : string) (args : list LogArg) (s : DisplaxTouch) : DisplaxTouch :=
  match logCallback s with
  | None => s
  | Some cb => emit (Logged cb Warn format args) s
  end.

(** ** State changes *)

Definition setState (newState : TouchState) (s : DisplaxTouch) : DisplaxTouch :=
  let previousState := state s in
  if TouchState_eqb newState previousState then s
  else
    let s := with_state newState s in
    let s := log "State changed from %s to %s"
               [ArgStr (getStateName previousState); ArgStr (getStateName newState)] s in
    match stateChangeCallback s with
    | None => s
    | Some cb => emit (StateChanged cb newState previousState) s
    end.

(** ** Sending commands *)

Definition sendCommand (command : Command) (s : DisplaxTouch) : DisplaxTouch :=
  let commandValue := uint16 (commandValue command) in
  let commandBytes :=
    [uint8 (Z.land commandValue 0xFF); uint8 (Z.land (Z.shiftr commandValue 8) 0xFF)] in
  let s := with_stream (Stream.write commandBytes (stream s)) s in
  log "Sent command: %s (%s)" [ArgStr (getCommandName command); ArgNum commandValue] s.

Definition sendReset (s : DisplaxTouch) : DisplaxTouch :=
  let s := setState INITIALIZING s in
  sendCommand RESET s.

Definition sendGetFrameSize : DisplaxTouch -> DisplaxTouch := sendCommand GET_FRAME_SIZE.
Definition sendEnableReporting : DisplaxTouch -> DisplaxTouch := sendCommand ENABLE_REPORTING.
Definition sendDisableUsbReporting : DisplaxTouch -> DisplaxTouch :=
  sendCommand DISABLE_USB_REPORTING.

(** ** Receive buffer *)

(* [memmove(buf + dst, buf + src, count)] inside one array *)
Definition memmove (buf : list Z) (dst src count : nat) : list Z :=
  take dst buf ++ take count (drop src buf) ++ drop (dst + count) buf.

Definition consumeBuffer (bytesToConsume : nat) (s : DisplaxTouch) : DisplaxTouch :=
  if (rxBufferSize s <=? bytesToConsume)%nat then with_rxBufferSize 0%nat s
  else
    let s := with_rxBuffer
               (memmove (rxBuffer s) 0 bytesToConsume (rxBufferSize s - bytesToConsume)) s in
    with_rxBufferSize (rxBufferSize s - bytesToConsume)%nat s.

(** ** Frame locator *)

Definition headerAt (data : list Z) (position : nat) : bool :=
  (byteAt data position =? 0x04) && (byteAt data (position + 1) =? 0x00)
  && (byteAt data (position + 2) =? 0x40) && (byteAt data (position + 3) =? 0x00).

(* the [for] loop of [findFrameHeader]: [iterations] passes remain *)
Fixpoint findFrameHeaderFrom (iterations position : nat) (data : list Z) : Z :=
  match iterations with
  | O => -1
  | S k =>
      if headerAt data position then Z.of_nat position
      else findFrameHeaderFrom k (S position) data
  end.

Definition findFrameHeader (data : list Z) (len : nat) : Z :=
  if (len <? 4)%nat then -1
  else findFrameHeaderFrom (len - 4 + 1) 0 data.

Definition isValidTouchFrame (data : list Z) (len : nat) : bool :=
  if (len <? TOUCH_REPORT_SIZE)%nat then false
  else headerAt data 0.

Definition synchronize (s : DisplaxTouch) : DisplaxTouch :=
  if (rxBufferSize s <? 4)%nat then s
  else
    let frameHeaderPosition := findFrameHeader (rxBuffer s) (rxBufferSize s) in
    if 0 <? frameHeaderPosition then
      let s := log "Synchronizing: discarding %d bytes before header"
                 [ArgNum frameHeaderPosition] s in
      let s := consumeBuffer (Z.to_nat frameHeaderPosition) s in
      setState SYNCHRONIZED s
    else if frameHeaderPosition =? 0 then
      let s := log "Synchronized at frame header" [] s in
      setState SYNCHRONIZED s
    else
      let s := log "No header found, discarding buffer" [] s in
      consumeBuffer (rxBufferSize s) s.

(** ** CRC engine *)

(* one table-driven nibble step: [crc = (crc << 4) ^ CRC32_TABLE[crc >> 28]] *)
Definition crcNibble (crc : Z) : Z :=
  Z.lxor (uint32 (Z.shiftl crc 4)) (default 0 (CRC32_TABLE !! Z.to_nat (Z.shiftr crc 28))).

(* body of the word loop of [calculateCRC32] *)
Definition crcWord (data : list Z) (crc : Z) (wordIndex : nat) : Z :=
  let byteOffset := (wordIndex * 4)%nat in
  let word :=
    Z.lor (Z.lor (Z.lor (byteAt data byteOffset)
                        (uint32 (Z.shiftl (byteAt data (byteOffset + 1)) 8)))
                 (uint32 (Z.shiftl (byteAt data (byteOffset + 2)) 16)))
          (uint32 (Z.shiftl (byteAt data (byteOffset + 3)) 24)) in
  let crc := Z.lxor crc word in
  let crc := crcNibble crc in
  let crc := crcNibble crc in
  let crc := crcNibble crc in
  let crc := crcNibble crc in
  let crc := crcNibble crc in
  let crc := crcNibble crc in
  let crc := crcNibble crc in
  let crc := crcNibble crc in
  crc.

Definition calculateCRC32 (data : list Z) (len : nat) : Z :=
  let wordCount := (len / 4)%nat in
  fold_left (crcWord data) (seq 0 wordCount) 0xFFFFFFFF.

(* little-endian 32-bit field at [offset] *)
Definition storedCrcAt (frame : list Z) (offset : nat) : Z :=
  Z.lor (Z.lor (Z.lor (byteAt frame offset)
                      (uint32 (Z.shiftl (byteAt frame (offset + 1)) 8)))
               (uint32 (Z.shiftl (byteAt frame (offset + 2)) 16)))
        (uint32 (Z.shiftl (byteAt frame (offset + 3)) 24)).

Definition verifyCRC (frame : list Z) : bool :=
  let calculatedCrc := calculateCRC32 frame (TOUCH_REPORT_SIZE - TOUCH_CRC_SIZE) in
  let storedCrc := storedCrcAt frame 68 in
  calculatedCrc =? storedCrc.

(** ** Response handlers.  [data] is [rxBuffer] and [len] is [rxBufferSize]
    at the time of the call; every handler reads [data] before it consumes. *)

(* [static_cast<uint16_t>(lo) | (static_cast<uint16_t>(hi) << 8)] stored in a
   16-bit variable *)
Definition le16 (lo hi : Z) : Z := uint16 (Z.lor lo (Z.shiftl hi 8)).

Definition processGetHidDescriptor (data : list Z) (len : nat) (s : DisplaxTouch)
    : DisplaxTouch :=
  let s := log "Received HID descriptor (length: %zu)" [ArgNum (Z.of_nat len)] s in
  consumeBuffer GET_HID_DESCRIPTION_SIZE s.

Definition processGetHidReportDescriptor (data : list Z) (len : nat) (s : DisplaxTouch)
    : DisplaxTouch :=
  let s := log "Received HID report descriptor (length: %zu)" [ArgNum (Z.of_nat len)] s in
  consumeBuffer GET_HID_REPORT_DESCRIPTION_SIZE s.

Definition processGetFrameSize (data : list Z) (len : nat) (s : DisplaxTouch)
    : DisplaxTouch :=
  let receivedWidth := le16 (byteAt data 2) (byteAt data 3) in
  let receivedHeight := le16 (byteAt data 4) (byteAt data 5) in
  let s := with_frameSize receivedWidth receivedHeight s in
  let s := log "Received frame size (width: %u, height: %u)"
             [ArgNum (frameWidth s); ArgNum (frameHeight s)] s in
  let s := consumeBuffer GET_FRAME_SIZE_SIZE s in
  sendDisableUsbReporting s.

(* one contact slot: [touchData] points at its first byte *)
Definition readTouchPoint (touchData : list Z) (s : DisplaxTouch) : TouchPoint.t :=
  {| TouchPoint.id := byteAt touchData 1;
     TouchPoint.x := le16 (byteAt touchData 2) (byteAt touchData 3);
     TouchPoint.y := le16 (byteAt touchData 4) (byteAt touchData 5);
     TouchPoint.width := byteAt touchData 6;
     TouchPoint.height := byteAt touchData 7;
     TouchPoint.pressure := le16 (byteAt touchData 8) (byteAt touchData 9);
     TouchPoint.active := true;
     TouchPoint.frameWidth := frameWidth s;
     TouchPoint.frameHeight := frameHeight s |}.

(* the contact loop of [processTouchReport]; [iterations] bounds the number
   of passes, the loop condition is tested on every pass *)
Fixpoint parseTouches (iterations touchIndex : nat) (payload : list Z)
    (reportedTouchCount : Z) (s : DisplaxTouch) : DisplaxTouch :=
  match iterations with
  | O => s
  | S k =>
      if (Z.of_nat touchIndex <? reportedTouchCount)
         && (touchIndex <? MAX_TOUCH_CONTACTS)%nat then
        let touchData := drop (1 + touchIndex * 10) payload in
        let touchStatus := byteAt touchData 0 in
        if touchStatus =? 0 then
          parseTouches k (S touchIndex) payload reportedTouchCount s
        else
          let point := readTouchPoint touchData s in
          let s := with_touches (<[touchCount s := point]> (touches s)) s in
          let s := with_touchCount (S (touchCount s)) s in
          parseTouches k (S touchIndex) payload reportedTouchCount s
      else s
  end.

(* [for (listenerIndex = 0; listenerIndex < listenerCount; ...)] *)
Definition notifyListeners (s : DisplaxTouch) : DisplaxTouch :=
  fold_left
    (fun s listenerIndex =>
       emit (TouchesDelivered (default None (listeners s !! listenerIndex))
               (touches s) (touchCount s)) s)
    (seq 0 (listenerCount s)) s.

Definition processTouchReport (data : list Z) (len : nat) (s : DisplaxTouch)
    : DisplaxTouch :=
  if negb (isValidTouchFrame data len) then
    let s := warn "Invalid touch frame header, re-synchronizing" [] s in
    let s := consumeBuffer 1 s in
    setState SYNCHRONIZING s
  else
    let payloadSize := le16 (byteAt data 2) (byteAt data 3) in
    if negb (payloadSize =? TOUCH_PAYLOAD_SIZE) then
      let s := warn "Unexpected touch report payload size: %u, expected: %zu"
                 [ArgNum payloadSize; ArgNum TOUCH_PAYLOAD_SIZE] s in
      let s := consumeBuffer 1 s in
      setState SYNCHRONIZING s
    else if negb (verifyCRC data) then
      let s := warn "CRC mismatch, re-synchronizing" [] s in
      let s := consumeBuffer 1 s in
      setState SYNCHRONIZING s
    else
      let payload := drop 4 data in
      let reportedTouchCount := byteAt payload 61 in
      let s := with_scanTime (le16 (byteAt payload 62) (byteAt payload 63)) s in
      let s := with_touchCount 0%nat s in
      let s := parseTouches MAX_TOUCH_CONTACTS 0 payload reportedTouchCount s in
      let s := notifyListeners s in
      consumeBuffer TOUCH_REPORT_SIZE s.

Definition processEnableReporting (data : list Z) (len : nat) (s : DisplaxTouch)
    : DisplaxTouch :=
  let s := log "Received enable reporting response" [] s in
  let s := consumeBuffer 2 s in
  setState SYNCHRONIZED s.

Definition processDisableReporting (data : list Z) (len : nat) (s : DisplaxTouch)
    : DisplaxTouch :=
  let s := log "Received disable reporting (length: %zu)" [ArgNum (Z.of_nat len)] s in
  consumeBuffer 2 s.

Definition processResetResponse (now : Z) (data : list Z) (len : nat) (s : DisplaxTouch)
    : DisplaxTouch :=
  let initializationTimeTakenMs := ulong (ulong now - initializingStartTimeMs s) in
  let s := log "Received reset response (initialization time: %lu ms)"
             [ArgNum initializationTimeTakenMs] s in
  let s := consumeBuffer 2 s in
  let s := setState CONNECTED s in
  let s := with_initializingStartTimeMs 0 s in
  sendGetFrameSize s.

Definition processDisableUsbReporting (data : list Z) (len : nat) (s : DisplaxTouch)
    : DisplaxTouch :=
  let s := log "Received disable USB reporting response" [] s in
  let s := consumeBuffer 2 s in
  sendEnableReporting s.

Definition processEnableUsbReporting (data : list Z) (len : nat) (s : DisplaxTouch)
    : DisplaxTouch :=
  let s := log "Received enable USB reporting response" [] s in
  consumeBuffer 2 s.

(** ** Dispatch *)

Definition processStreamData (now : Z) (data : list Z) (len : nat) (s : DisplaxTouch)
    : DisplaxTouch :=
  let reportId := uint16 (Z.lor (byteAt data 0) (Z.shiftl (byteAt data 1) 8)) in
  if (reportId =? commandValue GET_HID_DESCRIPTOR)
     && (GET_HID_DESCRIPTION_SIZE <=? len)%nat then
    processGetHidDescriptor data len s
  else if (reportId =? commandValue GET_HID_REPORT_DESCRIPTION)
          && (GET_HID_REPORT_DESCRIPTION_SIZE <=? len)%nat then
    processGetHidReportDescriptor data len s
  else if (reportId =? commandValue GET_FRAME_SIZE) && (GET_FRAME_SIZE_SIZE <=? len)%nat then
    processGetFrameSize data len s
  else if (reportId =? commandValue TOUCH_REPORT_ID) && (TOUCH_REPORT_SIZE <=? len)%nat then
    processTouchReport data len s
  else if reportId =? commandValue ENABLE_REPORTING then
    processEnableReporting data len s
  else if reportId =? commandValue DISABLE_REPORTING then
    processDisableReporting data len s
  else if reportId =? commandValue RESET_RESPONSE then
    processResetResponse now data len s
  else if reportId =? commandValue DISABLE_USB_REPORTING then
    processDisableUsbReporting data len s
  else if reportId =? commandValue ENABLE_USB_REPORTING then
    processEnableUsbReporting data len s
  else if (TOUCH_REPORT_SIZE <=? len)%nat then
    let s := warn "Unknown report %s, searching for frame header" [ArgNum reportId] s in
    setState SYNCHRONIZING s
  else s.

(* [while (stream.available() && rxBufferSize < RX_BUFFER_SIZE)
      rxBuffer[rxBufferSize++] = stream.read();]
   by recursion on the bytes the transport holds *)
Fixpoint readAvailable (pending : list Z) (s : DisplaxTouch) : DisplaxTouch :=
  match pending with
  | [] => s
  | _ :: rest =>
      if (rxBufferSize s <? RX_BUFFER_SIZE)%nat then
        let (byte, st) := Stream.read (stream s) in
        let s := with_stream st s in
        let s := with_rxBuffer (<[rxBufferSize s := uint8 byte]> (rxBuffer s)) s in
        let s := with_rxBufferSize (S (rxBufferSize s)) s in
        readAvailable rest s
      else s
  end.

Definition readStreamData (now : Z) (s : DisplaxTouch) : DisplaxTouch :=
  let s := readAvailable (Stream.incoming (stream s)) s in
  if (RX_BUFFER_SIZE <=? rxBufferSize s)%nat then
    let s := warn "RX buffer overflow, resetting and searching for frame header" [] s in
    let s := with_rxBufferSize 0%nat s in
    setState SYNCHRONIZING s
  else if (rxBufferSize s <? 2)%nat then s
  else
    match state s with
    | DISCONNECTED | CONNECTED | INITIALIZATION_FAILED | INITIALIZING | SYNCHRONIZED =>
        processStreamData now (rxBuffer s) (rxBufferSize s) s
    | SYNCHRONIZING => synchronize s
    end.

(** ** Public interface *)

(* [while (stream.available()) stream.read();] *)
Fixpoint flushPending (pending : list Z) (st : Stream.t) : Stream.t :=
  match pending with
  | [] => st
  | _ :: rest => flushPending rest (snd (Stream.read st))
  end.

Definition begin (now : Z) (s : DisplaxTouch) : DisplaxTouch :=
  let s := log "Initializing" [] s in
  let s := with_initializingStartTimeMs (ulong now) s in
  let s := with_stream (flushPending (Stream.incoming (stream s)) (stream s)) s in
  sendReset s.

Definition loop (now : Z) (s : DisplaxTouch) : DisplaxTouch :=
  let s :=
    if TouchState_eqb (state s) INITIALIZING && (0 <? initializingStartTimeMs s) then
      let currentMs := ulong now in
      if INITIALIZATION_TIMEOUT_MS <=? ulong (currentMs - initializingStartTimeMs s) then
        let s := warn "Initialization timeout - no response from sensor in %lu ms"
                   [ArgNum INITIALIZATION_TIMEOUT_MS] s in
        let s := setState INITIALIZATION_FAILED s in
        with_initializingStartTimeMs 0 s
      else s
    else s in
  readStreamData now s.

Definition getTouchCount (s : DisplaxTouch) : nat := touchCount s.
Definition getTouch (index : nat) (s : DisplaxTouch) : TouchPoint.t :=
  default TouchPoint.zero (touches s !! index).
Definition getScanTime (s : DisplaxTouch) : Z := uint16 (scanTime s).
Definition isTouched (s : DisplaxTouch) : bool := (0 <? touchCount s)%nat.
Definition getFrameWidth (s : DisplaxTouch) : Z := frameWidth s.
Definition getFrameHeight (s : DisplaxTouch) : Z := frameHeight s.
Definition getTouchState (s : DisplaxTouch) : TouchState := state s.

Definition setFrameSize (width height : Z) (s : DisplaxTouch) : DisplaxTouch :=
  let s := with_frameSize (uint16 width) (uint16 height) s in
  log "Frame size manually set to %u x %u" [ArgNum (frameWidth s); ArgNum (frameHeight s)] s.

Definition clearTouches (s : DisplaxTouch) : DisplaxTouch := with_touchCount 0%nat s.

Definition setLogCallback (callback : TouchLogCallback) (s : DisplaxTouch) : DisplaxTouch :=
  with_logCallback callback s.
Definition setStateChangeCallback (callback : StateChangeCallback) (s : DisplaxTouch)
    : DisplaxTouch :=
  with_stateChangeCallback callback s.

(** ** Listener registry *)

Definition addTouchListener (callback : TouchCallback) (s : DisplaxTouch)
    : Z * DisplaxTouch :=
  if (match callback with None => true | Some _ => false end)
     || (MAX_LISTENERS <=? listenerCount s)%nat then (-1, s)
  else
    let listenerId := nextListenerId s in
    let s := with_registry
               (<[listenerCount s := callback]> (listeners s))
               (S (listenerCount s))
               (<[listenerCount s := listenerId]> (listenerIds s))
               (int32 (nextListenerId s + 1)) s in
    (listenerId, s).

(* the inner loop of [removeTouchListener]:
   [for (shiftIndex = index; shiftIndex < listenerCount - 1; shiftIndex++)] *)
Fixpoint shiftDown (iterations shiftIndex : nat) (ls : list TouchCallback) (ids : list Z)
    : list TouchCallback * list Z :=
  match iterations with
  | O => (ls, ids)
  | S k =>
      let ls := <[shiftIndex := default None (ls !! S shiftIndex)]> ls in
      let ids := <[shiftIndex := default 0 (ids !! S shiftIndex)]> ids in
      shiftDown k (S shiftIndex) ls ids
  end.

(* the search loop of [removeTouchListener] *)
Fixpoint removeFrom (iterations index : nat) (listenerId : Z) (s : DisplaxTouch)
    : bool * DisplaxTouch :=
  match iterations with
  | O => (false, s)
  | S k =>
      if default 0 (listenerIds s !! index) =? listenerId then
        let (ls, ids) :=
          shiftDown (listenerCount s - 1 - index) index (listeners s) (listenerIds s) in
        (true, with_registry ls (listenerCount s - 1)%nat ids (nextListenerId s) s)
      else removeFrom k (S index) listenerId s
  end.

Definition removeTouchListener (listenerId : Z) (s : DisplaxTouch) : bool * DisplaxTouch :=
  removeFrom (listenerCount s) 0 listenerId s.

(** The registered listeners, in array order: (id, callback). *)
Definition registered (s : DisplaxTouch) : list (Z * TouchCallback) :=
  zip (take (listenerCount s) (listenerIds s)) (take (listenerCount s) (listeners s)).

(** * Vocabulary of the properties and sample inputs *)

Definition logged (level : TouchLogLevel) (format : string) (args : list LogArg)
    (s : DisplaxTouch) : list Event :=
  match logCallback s with
  | None => []
  | Some cb => [Logged cb level format args]
  end.

Definition stateEvents (newState : TouchState) (s : DisplaxTouch) : list Event :=
  if TouchState_eqb newState (state s) then []
  else
    logged Info "State changed from %s to %s"
      [ArgStr (getStateName (state s)); ArgStr (getStateName newState)] s
    ++ match stateChangeCallback s with
       | None => []
       | Some cb => [StateChanged cb newState (state s)]
       end.

Definition buffer_ok (s : DisplaxTouch) : Prop :=
  (rxBufferSize s <= length (rxBuffer s))%nat.

(** The marker [04 00 40 00] sits at offset [k] of a byte sequence. *)
Definition markerAt (bytes : list Z) (k : nat) : Prop :=
  bytes !! k = Some 0x04 /\ bytes !! (k + 1)%nat = Some 0x00
  /\ bytes !! (k + 2)%nat = Some 0x40 /\ bytes !! (k + 3)%nat = Some 0x00.

Definition firstMarkerAt (bytes : list Z) (k : nat) : Prop :=
  markerAt bytes k /\ forall j, (j < k)%nat -> ~ markerAt bytes j.

(** What the three rejecting branches of [processTouchReport] do. *)
Definition rejectOneByte (format : string) (args : list LogArg) (s : DisplaxTouch)
    : DisplaxTouch :=
  setState SYNCHRONIZING (consumeBuffer 1 (warn format args s)).

(** The three gates of [processTouchReport], on the frame at the head of
    [data]. *)
Definition gatesPass (data : list Z) : bool :=
  headerAt data 0
  && (le16 (byteAt data 2) (byteAt data 3) =? TOUCH_PAYLOAD_SIZE)
  && verifyCRC data.

(** Contact slot [i] of the frame at the head of [data]: the payload starts
    at offset 4 and the slots at payload offset 1, ten bytes each. *)
Definition slotStatus (data : list Z) (i : nat) : Z := byteAt data (4 + (1 + i * 10)).

Definition slotPoint (data : list Z) (fw fh : Z) (i : nat) : TouchPoint.t :=
  let base := (4 + (1 + i * 10))%nat in
  {| TouchPoint.id := byteAt data (base + 1);
     TouchPoint.x := le16 (byteAt data (base + 2)) (byteAt data (base + 3));
     TouchPoint.y := le16 (byteAt data (base + 4)) (byteAt data (base + 5));
     TouchPoint.width := byteAt data (base + 6);
     TouchPoint.height := byteAt data (base + 7);
     TouchPoint.pressure := le16 (byteAt data (base + 8)) (byteAt data (base + 9));
     TouchPoint.active := true;
     TouchPoint.frameWidth := fw;
     TouchPoint.frameHeight := fh |}.

(** The slots that are looked at: the first [min(reported_count, 6)]. *)
Definition examinedSlots (data : list Z) : list nat :=
  seq 0 (Nat.min (Z.to_nat (byteAt data (4 + 61))) MAX_TOUCH_CONTACTS).

(** Of those, the ones with a nonzero status byte. *)
Definition activeSlots (data : list Z) : list nat :=
  filter (fun i => slotStatus data i <> 0) (examinedSlots data).

(** What one dispatch can do to the lifecycle fields: the state is kept or
    moves to SYNCHRONIZING, SYNCHRONIZED or CONNECTED; the recorded start time
    is kept or cleared; the observers stay installed. *)
Record dispatchEffect (s s' : DisplaxTouch) : Prop := {
  de_state :
    state s' = state s \/ state s' = SYNCHRONIZING
    \/ state s' = SYNCHRONIZED \/ state s' = CONNECTED;
  de_start :
    initializingStartTimeMs s' = initializingStartTimeMs s
    \/ initializingStartTimeMs s' = 0;
  de_log : logCallback s' = logCallback s;
  de_observer : stateChangeCallback s' = stateChangeCallback s
}.

(** The read loop on its three variables. *)
Fixpoint readInto (pending : list Z) (st : Stream.t) (buf : list Z) (size : nat)
    : Stream.t * list Z * nat :=
  match pending with
  | [] => (st, buf, size)
  | _ :: rest =>
      if (size <? RX_BUFFER_SIZE)%nat then
        readInto rest (snd (Stream.read st)) (<[size := uint8 (fst (Stream.read st))]> buf)
          (S size)
      else (st, buf, size)
  end.

(** The engine after the read loop of a pass. *)
Definition afterRead (s : DisplaxTouch) : DisplaxTouch :=
  readAvailable (Stream.incoming (stream s)) s.

(** The receive array has its declared size and the fill counter is within
    it. *)
Definition rx_ok (s : DisplaxTouch) : Prop :=
  length (rxBuffer s) = RX_BUFFER_SIZE /\ (rxBufferSize s <= RX_BUFFER_SIZE)%nat.

(** The body of [readStreamData] after the read loop. *)
Definition handleBuffered (now : Z) (s : DisplaxTouch) : DisplaxTouch :=
  if (RX_BUFFER_SIZE <=? rxBufferSize s)%nat then
    setState SYNCHRONIZING
      (with_rxBufferSize 0%nat
         (warn "RX buffer overflow, resetting and searching for frame header" [] s))
  else if (rxBufferSize s <? 2)%nat then s
  else
    match state s with
    | SYNCHRONIZING => synchronize s
    | _ => processStreamData now (rxBuffer s) (rxBufferSize s) s
    end.

(** The timeout check at the top of [loop]. *)
Definition checkTimeout (now : Z) (s : DisplaxTouch) : DisplaxTouch :=
  if TouchState_eqb (state s) INITIALIZING && (0 <? initializingStartTimeMs s) then
    if INITIALIZATION_TIMEOUT_MS <=? ulong (ulong now - initializingStartTimeMs s) then
      with_initializingStartTimeMs 0
        (setState INITIALIZATION_FAILED
           (warn "Initialization timeout - no response from sensor in %lu ms"
              [ArgNum INITIALIZATION_TIMEOUT_MS] s))
    else s
  else s.

(** The sensor delivers bytes to the transport. *)
Definition receive (bytes : list Z) (s : DisplaxTouch) : DisplaxTouch :=
  with_stream (Stream.arrive bytes (stream s)) s.

Inductive Step : Type :=
| Loop (now : Z)
| Receive (bytes : list Z).

Definition step (st : Step) (s : DisplaxTouch) : DisplaxTouch :=
  match st with
  | Loop now => loop now s
  | Receive bytes => receive bytes s
  end.

Definition run (steps : list Step) (s : DisplaxTouch) : DisplaxTouch :=
  fold_left (fun s st => step st s) steps s.

(** A sample engine: constructed on an idle transport. *)
Definition idleStream : Stream.t := Stream.mk [] [].

Definition fresh : DisplaxTouch := construct idleStream.

Definition keepsFrame (s s' : DisplaxTouch) : Prop :=
  frameWidth s' = frameWidth s /\ frameHeight s' = frameHeight s.

(** The report identifier at the head of [data]. *)
Definition reportIdOf (data : list Z) : Z :=
  uint16 (Z.lor (byteAt data 0) (Z.shiftl (byteAt data 1) 8)).

(** A GET_FRAME_SIZE response is what the pass dispatches on engine [t]
    ([t] is the engine after the read loop). *)
Definition frameSizeResponseDispatched (t : DisplaxTouch) : bool :=
  negb (RX_BUFFER_SIZE <=? rxBufferSize t)%nat
  && negb (TouchState_eqb (state t) SYNCHRONIZING)
  && (reportIdOf (rxBuffer t) =? commandValue GET_FRAME_SIZE)
  && (GET_FRAME_SIZE_SIZE <=? rxBufferSize t)%nat.

(** No frame marker shows up among the buffered bytes in any pass of a run. *)
Fixpoint markerFree (steps : list Step) (s : DisplaxTouch) : Prop :=
  match steps with
  | [] => True
  | Loop now :: rest =>
      (forall k, ~ markerAt (buffered (afterRead s)) k) /\ markerFree rest (loop now s)
  | Receive bytes :: rest => markerFree rest (receive bytes s)
  end.

(** Registry operations issued by the application. *)
Inductive RegistryOp : Type :=
| AddListener (callback : TouchCallback)
| RemoveListener (listenerId : Z).

(** Runs the operations in order; returns the ids handed out by the
    successful registrations, in the order they were handed out. *)
Fixpoint runRegistry (ops : list RegistryOp) (s : DisplaxTouch) : list Z * DisplaxTouch :=
  match ops with
  | [] => ([], s)
  | AddListener callback :: rest =>
      let (r, s1) := addTouchListener callback s in
      let (issued, s2) := runRegistry rest s1 in
      (if r =? -1 then issued else r :: issued, s2)
  | RemoveListener listenerId :: rest =>
      runRegistry rest (snd (removeTouchListener listenerId s))
  end.

(** The registry arrays have their declared size, the counter is within
    them, no id was handed out beyond [nextListenerId], and the live ids are
    strictly increasing in array order. *)
Definition registry_ok (s : DisplaxTouch) : Prop :=
  length (listeners s) = MAX_LISTENERS
  /\ length (listenerIds s) = MAX_LISTENERS
  /\ (listenerCount s <= MAX_LISTENERS)%nat
  /\ 0 <= nextListenerId s
  /\ Forall (fun i => 0 <= i < nextListenerId s) (take (listenerCount s) (listenerIds s))
  /\ StronglySorted Z.lt (take (listenerCount s) (listenerIds s)).

(** The inner loop on one array. *)
Fixpoint shiftList {A} (d : A) (iterations shiftIndex : nat) (l : list A) : list A :=
  match iterations with
  | O => l
  | S k => shiftList d k (S shiftIndex) (<[shiftIndex := default d (l !! S shiftIndex)]> l)
  end.

(* little-endian bytes of a 32-bit value *)
Definition le32Bytes (v : Z) : list Z :=
  [Z.land v 0xFF; Z.land (Z.shiftr v 8) 0xFF;
   Z.land (Z.shiftr v 16) 0xFF; Z.land (Z.shiftr v 24) 0xFF].

(* header, sub-report id, one active contact in slot 0 (id 3, x 0x0234,
   y 0x0156, width 12, height 9, pressure 0x0102), five empty slots,
   count 1, scan time 0x2710 *)
Definition sampleFrameBody : list Z :=
  [0x04; 0x00; 0x40; 0x00; 0x01;
   0x01; 0x03; 0x34; 0x02; 0x56; 0x01; 0x0C; 0x09; 0x02; 0x01]
  ++ replicate 50 0 ++ [0x01; 0x10; 0x27].

Definition sampleFrame : list Z :=
  sampleFrameBody ++ le32Bytes (calculateCRC32 sampleFrameBody 68).

(* the same frame with the last CRC byte flipped *)
Definition corruptedFrame : list Z :=
  take 71 sampleFrame ++ [Z.lxor (byteAt sampleFrame 71) 0xFF].

(* engines that have read some bytes *)
Definition holding (bytes : list Z) : DisplaxTouch := afterRead (receive bytes fresh).

(* an engine that overflowed, then read [bytes] *)
Definition resyncing (bytes : list Z) : DisplaxTouch :=
  afterRead (receive bytes (loop 2 (receive (replicate 2048 0xAA) fresh))).

(* an engine whose initialization timed out *)
Definition timedOut : DisplaxTouch := loop 1001 (begin 1 fresh).

(** * Properties *)

(** ** Normal forms of the primitives: each is a composition of field
    updates, so that projections of the result compute. *)

Lemma TouchState_eqb_eq (a b : TouchState) : TouchState_eqb a b = true <-> a = b.
Proof. destruct a, b; simpl; split; congruence. Qed.

Lemma TouchState_eqb_refl (a : TouchState) : TouchState_eqb a a = true.
Proof. by destruct a. Qed.

Lemma log_nf format args s :
  log format args s = with_trace (trace s ++ logged Info format args s) s.
Proof.
  unfold log, logged, emit. destruct s as [? ? ? ? ? ? ? ? ? ? ? ? ? lc ? ? tr]; simpl.
  destruct lc; simpl; [reflexivity | by rewrite app_nil_r].
Qed.

Lemma warn_nf format args s :
  warn format args s = with_trace (trace s ++ logged Warn format args s) s.
Proof.
  unfold warn, logged, emit. destruct s as [? ? ? ? ? ? ? ? ? ? ? ? ? lc ? ? tr]; simpl.
  destruct lc; simpl; [reflexivity | by rewrite app_nil_r].
Qed.

Lemma setState_nf newState s :
  setState newState s = with_trace (trace s ++ stateEvents newState s) (with_state newState s).
Proof.
  unfold setState, stateEvents. destruct (TouchState_eqb newState (state s)) eqn:E.
  - apply TouchState_eqb_eq in E. subst newState.
    destruct s; simpl. by rewrite app_nil_r.
  - rewrite log_nf. unfold logged, emit.
    destruct s as [? ? ? ? ? ? ? ? ? ? ? ? sc lc ? ? tr]; simpl.
    destruct sc, lc; simpl; rewrite <- ?app_assoc, ?app_nil_r; reflexivity.
Qed.

Lemma sendCommand_nf command s :
  sendCommand command s =
  with_trace
    (trace s ++ logged Info "Sent command: %s (%s)"
       [ArgStr (getCommandName command); ArgNum (uint16 (commandValue command))] s)
    (with_stream
       (Stream.write
          [uint8 (Z.land (uint16 (commandValue command)) 0xFF);
           uint8 (Z.land (Z.shiftr (uint16 (commandValue command)) 8) 0xFF)]
          (stream s)) s).
Proof. unfold sendCommand. by rewrite log_nf. Qed.

Lemma consumeBuffer_nf n s :
  consumeBuffer n s =
  with_rxBufferSize (rxBufferSize s - n)%nat
    (with_rxBuffer
       (if (rxBufferSize s <=? n)%nat then rxBuffer s
        else memmove (rxBuffer s) 0 n (rxBufferSize s - n)) s).
Proof.
  unfold consumeBuffer. destruct (Nat.leb_spec (rxBufferSize s) n) as [H|H].
  - replace (rxBufferSize s - n)%nat with 0%nat by lia. by destruct s.
  - reflexivity.
Qed.

(** Rewriting with the normal forms. *)
Ltac nf :=
  rewrite ?log_nf, ?warn_nf, ?setState_nf, ?sendCommand_nf, ?consumeBuffer_nf.

(** ** Receive buffer *)

Lemma memmove_front (buf : list Z) (src count : nat) :
  (src + count <= length buf)%nat ->
  take count (memmove buf 0 src count) = take count (drop src buf).
Proof.
  intros H. unfold memmove. rewrite take_0. simpl.
  rewrite take_app_le by (rewrite length_take, length_drop; lia).
  rewrite take_take. f_equal. lia.
Qed.

Lemma length_memmove (buf : list Z) (src count : nat) :
  (src + count <= length buf)%nat ->
  length (memmove buf 0 src count) = length buf.
Proof.
  intros H. unfold memmove. rewrite take_0. simpl.
  rewrite length_app, length_take, !length_drop. lia.
Qed.

Lemma consumeBuffer_buffered n s :
  buffer_ok s -> buffered (consumeBuffer n s) = drop n (buffered s).
Proof.
  unfold buffer_ok, buffered. intros Hok. rewrite consumeBuffer_nf. simpl.
  destruct (Nat.leb_spec (rxBufferSize s) n) as [H|H].
  - replace (rxBufferSize s - n)%nat with 0%nat by lia.
    rewrite take_0. symmetry. apply drop_ge. rewrite length_take. lia.
  - rewrite memmove_front by lia. by rewrite skipn_firstn_comm.
Qed.

Lemma consumeBuffer_size n s :
  rxBufferSize (consumeBuffer n s) = (rxBufferSize s - n)%nat.
Proof. by rewrite consumeBuffer_nf. Qed.

Lemma consumeBuffer_ok n s : buffer_ok s -> buffer_ok (consumeBuffer n s).
Proof.
  unfold buffer_ok. intros Hok. rewrite consumeBuffer_nf. simpl.
  destruct (Nat.leb_spec (rxBufferSize s) n) as [H|H]; [lia|].
  rewrite length_memmove; lia.
Qed.

Lemma consumeBuffer_length n s :
  buffer_ok s -> length (rxBuffer (consumeBuffer n s)) = length (rxBuffer s).
Proof.
  unfold buffer_ok. intros Hok. rewrite consumeBuffer_nf. simpl.
  destruct (Nat.leb_spec (rxBufferSize s) n) as [H|H]; [done|].
  rewrite length_memmove; lia.
Qed.

Lemma length_buffered s : buffer_ok s -> length (buffered s) = rxBufferSize s.
Proof. unfold buffer_ok, buffered. intros H. rewrite length_take. lia. Qed.

(** C7.  For every engine state whose fill counter is within the array and
    every [n], [consumeBuffer n] leaves [max(0, old_len - n)] buffered bytes,
    and they are the suffix of the old contents that starts at index [n], in
    the same order; with [n >= old_len] nothing is left. *)
Theorem C7_consumeBuffer_suffix (n : nat) (s : DisplaxTouch) :
  buffer_ok s ->
  let s' := consumeBuffer n s in
  Z.of_nat (rxBufferSize s') = Z.max 0 (Z.of_nat (rxBufferSize s) - Z.of_nat n)
  /\ length (buffered s') = rxBufferSize s'
  /\ buffered s' = drop n (buffered s)
  /\ ((rxBufferSize s <= n)%nat -> rxBufferSize s' = 0%nat /\ buffered s' = []).
Proof.
  intros Hok s'. subst s'.
  rewrite consumeBuffer_size, consumeBuffer_buffered by done.
  repeat split.
  - lia.
  - rewrite length_drop, length_buffered by done. reflexivity.
  - lia.
  - apply drop_ge. rewrite length_buffered by done. lia.
Qed.

(** ** Frame locator and resynchronization *)

Lemma byteAt_take (data : list Z) (n i : nat) :
  (i < n)%nat -> (n <= length data)%nat ->
  take n data !! i = Some (byteAt data i).
Proof.
  intros Hi Hn. rewrite lookup_take_lt by done. unfold byteAt.
  destruct (lookup_lt_is_Some_2 data i) as [b Hb]; [lia|]. by rewrite Hb.
Qed.

Lemma headerAt_marker (data : list Z) (n k : nat) :
  (k + 4 <= n)%nat -> (n <= length data)%nat ->
  headerAt data k = true <-> markerAt (take n data) k.
Proof.
  intros Hk Hn. unfold headerAt, markerAt.
  rewrite !byteAt_take by lia.
  rewrite !andb_true_iff, !Z.eqb_eq. split.
  - intros [[[-> ->] ->] ->]. done.
  - intros (? & ? & ? & ?). repeat split; congruence.
Qed.

Lemma markerAt_bound (bytes : list Z) (k : nat) :
  markerAt bytes k -> (k + 4 <= length bytes)%nat.
Proof.
  intros (_ & _ & _ & H). apply lookup_lt_Some in H. lia.
Qed.

Lemma findFrameHeaderFrom_none (data : list Z) (iterations position : nat) :
  findFrameHeaderFrom iterations position data = -1 <->
  forall j, (position <= j < position + iterations)%nat -> headerAt data j = false.
Proof.
  revert position. induction iterations as [|k IH]; intros position; simpl.
  - split; [intros _ j Hj; lia | done].
  - destruct (headerAt data position) eqn:E.
    + split; [lia|]. intros H. specialize (H position). rewrite E in H.
      discriminate H. lia.
    + rewrite IH. split; intros H j Hj.
      * destruct (decide (j = position)) as [->|]; [done|]. apply H. lia.
      * apply H. lia.
Qed.

Lemma findFrameHeaderFrom_some (data : list Z) (iterations position : nat) (r : Z) :
  findFrameHeaderFrom iterations position data = r -> r <> -1 ->
  exists k, r = Z.of_nat k /\ (position <= k < position + iterations)%nat
            /\ headerAt data k = true
            /\ forall j, (position <= j < k)%nat -> headerAt data j = false.
Proof.
  revert position. induction iterations as [|n IH]; intros position; simpl.
  - congruence.
  - destruct (headerAt data position) eqn:E.
    + intros <- _. exists position. repeat split; try lia; try done.
    + intros Hr Hne. destruct (IH _ Hr Hne) as (k & -> & Hk & Hh & Hlt).
      exists k. repeat split; try lia; try done.
      intros j Hj. destruct (decide (j = position)) as [->|]; [done|]. apply Hlt. lia.
Qed.

(** [findFrameHeader] returns the offset of the first marker among the
    buffered bytes, and -1 exactly when there is none. *)
Lemma findFrameHeader_first s k :
  buffer_ok s -> firstMarkerAt (buffered s) k ->
  findFrameHeader (rxBuffer s) (rxBufferSize s) = Z.of_nat k.
Proof.
  unfold buffer_ok, buffered. intros Hok [Hm Hfirst].
  pose proof (markerAt_bound _ _ Hm) as Hb. rewrite length_take in Hb.
  unfold findFrameHeader. destruct (Nat.ltb_spec (rxBufferSize s) 4) as [?|Hge]; [lia|].
  destruct (Z.eq_dec (findFrameHeaderFrom (rxBufferSize s - 4 + 1) 0 (rxBuffer s)) (-1))
    as [Hnone|Hsome].
  - rewrite findFrameHeaderFrom_none in Hnone.
    apply (headerAt_marker _ (rxBufferSize s)) in Hm; [|lia|lia].
    rewrite Hnone in Hm; [done|lia].
  - destruct (findFrameHeaderFrom_some _ _ _ _ eq_refl Hsome) as (k' & -> & Hk' & Hh & Hlt).
    f_equal. apply (headerAt_marker _ (rxBufferSize s)) in Hh; [|lia|lia].
    destruct (Nat.lt_trichotomy k k') as [Hlt'|[->|Hgt]]; [|done|].
    + apply (headerAt_marker _ (rxBufferSize s)) in Hm; [|lia|lia].
      rewrite Hlt in Hm; [done|lia].
    + exfalso. by apply (Hfirst k').
Qed.

Lemma findFrameHeader_absent s :
  buffer_ok s -> (forall k, ~ markerAt (buffered s) k) ->
  findFrameHeader (rxBuffer s) (rxBufferSize s) = -1.
Proof.
  unfold buffer_ok, buffered. intros Hok Hno.
  unfold findFrameHeader. destruct (Nat.ltb_spec (rxBufferSize s) 4) as [?|Hge]; [done|].
  apply findFrameHeaderFrom_none. intros j Hj.
  destruct (headerAt (rxBuffer s) j) eqn:E; [|done].
  apply (headerAt_marker _ (rxBufferSize s)) in E; [|lia|lia]. by apply Hno in E.
Qed.

Lemma findFrameHeader_found s r :
  buffer_ok s -> findFrameHeader (rxBuffer s) (rxBufferSize s) = r -> r <> -1 ->
  exists k, r = Z.of_nat k /\ firstMarkerAt (buffered s) k.
Proof.
  unfold buffer_ok, buffered. intros Hok Hr Hne. unfold findFrameHeader in Hr.
  destruct (Nat.ltb_spec (rxBufferSize s) 4) as [?|Hge]; [congruence|].
  destruct (findFrameHeaderFrom_some _ _ _ _ Hr Hne) as (k & -> & Hk & Hh & Hlt).
  exists k. split; [done|]. split.
  - apply (headerAt_marker _ (rxBufferSize s)) in Hh; [done|lia|lia].
  - intros j Hj Hm. pose proof (markerAt_bound _ _ Hm) as Hb. rewrite length_take in Hb.
    apply (headerAt_marker _ (rxBufferSize s)) in Hm; [|lia|lia].
    rewrite Hlt in Hm; [done|lia].
Qed.

(** C3.  [synchronize] on [L] buffered bytes, engine in SYNCHRONIZING:
    with [L < 4] nothing changes; with the first marker at offset 0 the state
    becomes SYNCHRONIZED and the buffer is unchanged; with the first marker at
    offset [k > 0] exactly [k] leading bytes are discarded and the state
    becomes SYNCHRONIZED; with no marker the whole buffer is discarded and
    the state stays SYNCHRONIZING. *)
Theorem C3_synchronize (s : DisplaxTouch) :
  buffer_ok s ->
  state s = SYNCHRONIZING ->
  let s' := synchronize s in
  ((rxBufferSize s < 4)%nat -> s' = s)
  /\ ((4 <= rxBufferSize s)%nat -> firstMarkerAt (buffered s) 0 ->
      state s' = SYNCHRONIZED /\ rxBufferSize s' = rxBufferSize s
      /\ buffered s' = buffered s)
  /\ (forall k, (4 <= rxBufferSize s)%nat -> (0 < k)%nat -> firstMarkerAt (buffered s) k ->
      state s' = SYNCHRONIZED /\ rxBufferSize s' = (rxBufferSize s - k)%nat
      /\ buffered s' = drop k (buffered s))
  /\ ((4 <= rxBufferSize s)%nat -> (forall k, ~ markerAt (buffered s) k) ->
      state s' = SYNCHRONIZING /\ rxBufferSize s' = 0%nat /\ buffered s' = []).
Proof.
  intros Hok Hst s'. subst s'. unfold synchronize. repeat split.
  - intros H. by destruct (Nat.ltb_spec (rxBufferSize s) 4); [|lia].
  - destruct (Nat.ltb_spec (rxBufferSize s) 4); [lia|].
    rewrite (findFrameHeader_first s 0) by done. simpl. by nf.
  - destruct (Nat.ltb_spec (rxBufferSize s) 4); [lia|].
    rewrite (findFrameHeader_first s 0) by done. simpl. by nf.
  - destruct (Nat.ltb_spec (rxBufferSize s) 4); [lia|].
    rewrite (findFrameHeader_first s 0) by done. simpl. by nf.
  - destruct (Nat.ltb_spec (rxBufferSize s) 4); [lia|].
    rewrite (findFrameHeader_first s k) by done.
    destruct (Z.ltb_spec 0 (Z.of_nat k)); [|lia]. by nf.
  - destruct (Nat.ltb_spec (rxBufferSize s) 4); [lia|].
    rewrite (findFrameHeader_first s k) by done.
    destruct (Z.ltb_spec 0 (Z.of_nat k)); [|lia].
    rewrite setState_nf. simpl. rewrite consumeBuffer_size, log_nf. simpl.
    by rewrite Nat2Z.id.
  - destruct (Nat.ltb_spec (rxBufferSize s) 4); [lia|].
    rewrite (findFrameHeader_first s k) by done.
    destruct (Z.ltb_spec 0 (Z.of_nat k)); [|lia].
    rewrite setState_nf, log_nf, Nat2Z.id.
    change (buffered (with_trace ?t (with_state ?st ?x))) with (buffered x).
    rewrite consumeBuffer_buffered by done. reflexivity.
  - destruct (Nat.ltb_spec (rxBufferSize s) 4); [lia|].
    rewrite findFrameHeader_absent by done. simpl. nf. simpl. done.
  - destruct (Nat.ltb_spec (rxBufferSize s) 4); [lia|].
    rewrite findFrameHeader_absent by done. simpl. nf. simpl. lia.
  - destruct (Nat.ltb_spec (rxBufferSize s) 4); [lia|].
    rewrite findFrameHeader_absent by done. simpl. nf. unfold buffered. simpl.
    rewrite Nat.sub_diag. apply take_0.
Qed.

(** ** Touch reports *)

Lemma isValidTouchFrame_header (data : list Z) (len : nat) :
  (TOUCH_REPORT_SIZE <= len)%nat -> isValidTouchFrame data len = headerAt data 0.
Proof.
  intros H. unfold isValidTouchFrame.
  by destruct (Nat.ltb_spec len TOUCH_REPORT_SIZE); [lia|].
Qed.

Lemma rejectOneByte_effect format args s :
  buffer_ok s ->
  rxBufferSize (rejectOneByte format args s) = (rxBufferSize s - 1)%nat
  /\ buffered (rejectOneByte format args s) = drop 1 (buffered s)
  /\ state (rejectOneByte format args s) = SYNCHRONIZING.
Proof.
  intros Hok. unfold rejectOneByte. rewrite setState_nf, warn_nf.
  change (buffered (with_trace ?t (with_state ?st ?x))) with (buffered x).
  rewrite consumeBuffer_buffered by done.
  repeat split. by rewrite consumeBuffer_nf.
Qed.

Lemma verifyCRC_unfold (frame : list Z) :
  verifyCRC frame = (calculateCRC32 frame 68 =? storedCrcAt frame 68).
Proof. reflexivity. Qed.

Lemma processTouchReport_rejected (data : list Z) (len : nat) (s : DisplaxTouch) :
  (TOUCH_REPORT_SIZE <= len)%nat -> gatesPass data = false ->
  exists format args, processTouchReport data len s = rejectOneByte format args s.
Proof.
  intros Hlen Hg. unfold processTouchReport.
  rewrite isValidTouchFrame_header by done.
  destruct (headerAt data 0) eqn:Hh; [|do 2 eexists; reflexivity].
  destruct (le16 (byteAt data 2) (byteAt data 3) =? TOUCH_PAYLOAD_SIZE) eqn:Hp;
    [|do 2 eexists; reflexivity].
  destruct (verifyCRC data) eqn:Hc; [|do 2 eexists; reflexivity].
  unfold gatesPass in Hg. rewrite Hh, Hp, Hc in Hg. discriminate Hg.
Qed.

Lemma dispatch_touch_report now (data : list Z) (len : nat) (s : DisplaxTouch) :
  byteAt data 0 = 0x04 -> byteAt data 1 = 0x00 -> (TOUCH_REPORT_SIZE <= len)%nat ->
  processStreamData now data len s = processTouchReport data len s.
Proof.
  intros H0 H1 Hlen. unfold processStreamData. rewrite H0, H1.
  change (uint16 (Z.lor 4 (Z.shiftl 0 8))) with 4.
  change (4 =? commandValue GET_HID_DESCRIPTOR) with false.
  change (4 =? commandValue GET_HID_REPORT_DESCRIPTION) with false.
  change (4 =? commandValue GET_FRAME_SIZE) with false.
  change (4 =? commandValue TOUCH_REPORT_ID) with true.
  cbn [andb]. by destruct (Nat.leb_spec TOUCH_REPORT_SIZE len); [|lia].
Qed.

(** C2.  The buffer starts with the touch-report identifier [04 00] and
    holds at least 72 bytes.  If the report fails one of the three gates
    (header marker, payload-size field = 64, stored CRC = CRC32 of the first
    68 bytes), exactly one leading byte is consumed, the other bytes stay in
    order, and the state becomes SYNCHRONIZING. *)
Theorem C2_rejected_report_skips_one_byte (now : Z) (s : DisplaxTouch) :
  buffer_ok s ->
  (72 <= rxBufferSize s)%nat ->
  byteAt (rxBuffer s) 0 = 0x04 ->
  byteAt (rxBuffer s) 1 = 0x00 ->
  headerAt (rxBuffer s) 0 = false
  \/ le16 (byteAt (rxBuffer s) 2) (byteAt (rxBuffer s) 3) <> 64
  \/ storedCrcAt (rxBuffer s) 68 <> calculateCRC32 (rxBuffer s) 68 ->
  let s' := processStreamData now (rxBuffer s) (rxBufferSize s) s in
  s' = processTouchReport (rxBuffer s) (rxBufferSize s) s
  /\ rxBufferSize s' = (rxBufferSize s - 1)%nat
  /\ buffered s' = drop 1 (buffered s)
  /\ state s' = SYNCHRONIZING.
Proof.
  intros Hok Hlen H0 H1 Hfail s'. subst s'.
  rewrite dispatch_touch_report by done. split; [done|].
  destruct (processTouchReport_rejected (rxBuffer s) (rxBufferSize s) s Hlen)
    as (format & args & ->).
  - unfold gatesPass. destruct Hfail as [->|[Hp|Hc]]; [done| |].
    + apply Z.eqb_neq in Hp. unfold TOUCH_PAYLOAD_SIZE. rewrite Hp.
      by rewrite andb_false_r.
    + apply not_eq_sym, Z.eqb_neq in Hc. rewrite verifyCRC_unfold, Hc.
      by rewrite andb_false_r.
  - by apply rejectOneByte_effect.
Qed.

(** *** Decoding an accepted report *)

Lemma byteAt_drop (data : list Z) (n i : nat) :
  byteAt (drop n data) i = byteAt data (n + i).
Proof. unfold byteAt. by rewrite lookup_drop. Qed.

Lemma readTouchPoint_slot (data : list Z) (i : nat) (s : DisplaxTouch) :
  readTouchPoint (drop (1 + i * 10) (drop 4 data)) s
  = slotPoint data (frameWidth s) (frameHeight s) i.
Proof.
  unfold readTouchPoint, slotPoint. rewrite !byteAt_drop.
  repeat (f_equal; try lia).
Qed.

(** [parseTouches] only writes [touches] and [touchCount]. *)
Lemma parseTouches_frame iterations touchIndex payload reported s :
  exists ts c,
    parseTouches iterations touchIndex payload reported s
    = with_touchCount c (with_touches ts s).
Proof.
  revert touchIndex s. induction iterations as [|k IH]; intros touchIndex s; simpl.
  - exists (touches s), (touchCount s). by destruct s.
  - destruct (_ && _).
    + destruct (_ =? 0).
      * apply IH.
      * edestruct IH as (ts & c & ->). exists ts, c. reflexivity.
    + exists (touches s), (touchCount s). by destruct s.
Qed.

(** [MAX_TOUCH_CONTACTS] passes are enough: the loop leaves through its
    condition, and more passes change nothing. *)
Lemma parseTouches_passes iterations touchIndex payload reported s :
  (MAX_TOUCH_CONTACTS <= touchIndex + iterations)%nat ->
  parseTouches (S iterations) touchIndex payload reported s
  = parseTouches iterations touchIndex payload reported s.
Proof.
  revert touchIndex s. induction iterations as [|k IH]; intros touchIndex s Hle.
  - cbn [parseTouches].
    destruct (Nat.ltb_spec touchIndex MAX_TOUCH_CONTACTS); [lia|].
    by rewrite andb_false_r.
  - cbn [parseTouches] in *.
    destruct (_ && _); [|done].
    destruct (_ =? 0); apply IH; lia.
Qed.

(** The loop appends, in slot order, the points of the active slots among
    those it examines. *)
Lemma parseTouches_spec (data : list Z) (reported : Z) iterations touchIndex s :
  (MAX_TOUCH_CONTACTS <= touchIndex + iterations)%nat ->
  (touchCount s <= touchIndex)%nat ->
  (MAX_TOUCH_CONTACTS <= length (touches s))%nat ->
  let m := Nat.min (Z.to_nat reported) MAX_TOUCH_CONTACTS in
  let act := filter (fun i => slotStatus data i <> 0) (seq touchIndex (m - touchIndex)) in
  let s' := parseTouches iterations touchIndex (drop 4 data) reported s in
  touchCount s' = (touchCount s + length act)%nat
  /\ take (touchCount s') (touches s')
     = (take (touchCount s) (touches s)
        ++ map (slotPoint data (frameWidth s) (frameHeight s)) act)%list.
Proof.
  revert touchIndex s. induction iterations as [|k IH]; intros touchIndex s Hfuel Hc Hlen m.
  - simpl. replace (m - touchIndex)%nat with 0%nat by lia. simpl.
    rewrite app_nil_r. split; [lia|done].
  - cbn [parseTouches].
    destruct (Z.ltb_spec (Z.of_nat touchIndex) reported) as [Hr|Hr];
      destruct (Nat.ltb_spec touchIndex MAX_TOUCH_CONTACTS) as [Hm|Hm]; cbn [andb];
      try (replace (m - touchIndex)%nat with 0%nat by lia; simpl;
           rewrite app_nil_r; split; [lia|done]).
    assert (Hseq : (m - touchIndex)%nat = S (m - S touchIndex)) by lia.
    rewrite Hseq. cbn [seq]. rewrite filter_cons.
    rewrite !byteAt_drop, Nat.add_0_r.
    fold (slotStatus data touchIndex).
    destruct (Z.eqb_spec (slotStatus data touchIndex) 0) as [Hz|Hnz].
    + destruct (decide (slotStatus data touchIndex <> 0)) as [?|_]; [done|].
      apply IH; [lia|lia|done].
    + destruct (decide (slotStatus data touchIndex <> 0)) as [_|?]; [|done].
      rewrite readTouchPoint_slot.
      match goal with |- context [parseTouches k _ _ _ ?x] => set (s1 := x) end.
      specialize (IH (S touchIndex) s1).
      assert (Hlen1 : length (touches s1) = length (touches s))
        by (subst s1; simpl; apply length_insert).
      destruct IH as [IHc IHt]; [lia|subst s1; simpl; lia|lia|].
      fold m in IHc, IHt. rewrite IHt, IHc. subst s1. simpl. split; [lia|].
      rewrite (take_S_r _ _ (slotPoint data (frameWidth s) (frameHeight s) touchIndex)).
      * rewrite take_insert_ge by lia. by rewrite <- app_assoc.
      * apply list_lookup_insert_eq. lia.
Qed.

Lemma notifyListeners_nf s :
  notifyListeners s
  = with_trace
      (trace s ++ map (fun i => TouchesDelivered (default None (listeners s !! i))
                                  (touches s) (touchCount s))
                      (seq 0 (listenerCount s))) s.
Proof.
  unfold notifyListeners.
  generalize (seq 0 (listenerCount s)) as l.
  assert (G : forall l t,
    fold_left (fun s i => emit (TouchesDelivered (default None (listeners s !! i))
                                   (touches s) (touchCount s)) s) l (with_trace t s)
    = with_trace (t ++ map (fun i => TouchesDelivered (default None (listeners s !! i))
                                        (touches s) (touchCount s)) l) s).
  { induction l as [|i l IH]; intros t; simpl.
    - by rewrite app_nil_r.
    - change (emit ?e (with_trace t s)) with (with_trace (t ++ [e]) s).
      simpl. rewrite IH. by rewrite <- app_assoc. }
  intros l. rewrite <- G. f_equal. by destruct s.
Qed.

Lemma uint16_idem (v : Z) : uint16 (uint16 v) = uint16 v.
Proof. unfold uint16. apply Z.mod_mod. lia. Qed.

Lemma filter_none {A} (P : A -> Prop) `{forall x, Decision (P x)} (l : list A) :
  (forall x, x ∈ l -> ~ P x) -> filter P l = [].
Proof.
  induction l as [|a l IH]; intros Hn; [done|].
  rewrite filter_cons_False by (apply Hn; left).
  apply IH. intros x Hx. apply Hn. by right.
Qed.

(** A frame whose only active examined slot is slot 0. *)
Lemma activeSlots_single (data : list Z) :
  1 <= byteAt data 65 -> slotStatus data 0 <> 0 ->
  (forall i, (1 <= i)%nat -> Z.of_nat i < byteAt data 65 -> slotStatus data i = 0) ->
  activeSlots data = [0%nat].
Proof.
  intros Hc H0 Hrest. unfold activeSlots, examinedSlots.
  change (4 + 61)%nat with 65%nat.
  assert (Hm : exists m', Nat.min (Z.to_nat (byteAt data 65)) MAX_TOUCH_CONTACTS = S m'
                          /\ (S m' <= Z.to_nat (byteAt data 65))%nat).
  { unfold MAX_TOUCH_CONTACTS.
    exists (Nat.pred (Nat.min (Z.to_nat (byteAt data 65)) 6)). lia. }
  destruct Hm as (m' & -> & Hle). cbn [seq].
  rewrite filter_cons_True by done. f_equal.
  apply filter_none. intros i Hi Hs. apply elem_of_seq in Hi.
  apply Hs, Hrest; lia.
Qed.

Lemma processTouchReport_accepted (data : list Z) (len : nat) (s : DisplaxTouch) :
  (TOUCH_REPORT_SIZE <= len)%nat -> gatesPass data = true ->
  processTouchReport data len s
  = consumeBuffer TOUCH_REPORT_SIZE
      (notifyListeners
         (parseTouches MAX_TOUCH_CONTACTS 0 (drop 4 data) (byteAt (drop 4 data) 61)
            (with_touchCount 0%nat
               (with_scanTime
                  (le16 (byteAt (drop 4 data) 62) (byteAt (drop 4 data) 63)) s)))).
Proof.
  intros Hlen Hg. unfold gatesPass in Hg.
  apply andb_true_iff in Hg as [Hg Hc]. apply andb_true_iff in Hg as [Hh Hp].
  unfold processTouchReport. rewrite isValidTouchFrame_header by done.
  rewrite Hh, Hp, Hc. reflexivity.
Qed.

(** C5.  A frame at the head of the buffer with the header marker, the
    payload-size field 64 and a matching trailing CRC is decoded as follows.
    - Only the first [min(reported_count, 6)] slots are examined; the slots
      with status 0 are skipped and take no output slot: the output holds the
      points of the active examined slots, in slot order, each with id, x, y,
      width, height and pressure read little-endian from the slot and stamped
      with the frame dimensions in effect.
    - The scan time is the little-endian value of payload bytes 62-63.
    - 72 bytes are consumed and the connection state is unchanged.
    - With slot 0 active and no other examined slot active there is exactly
      one contact, the one encoded in slot 0.
    - After [clearTouches], [getTouchCount] is 0. *)
Theorem C5_decode_touch_report (s : DisplaxTouch) :
  buffer_ok s ->
  length (touches s) = MAX_TOUCHES ->
  (72 <= rxBufferSize s)%nat ->
  headerAt (rxBuffer s) 0 = true ->
  le16 (byteAt (rxBuffer s) 2) (byteAt (rxBuffer s) 3) = 64 ->
  verifyCRC (rxBuffer s) = true ->
  let data := rxBuffer s in
  let s' := processTouchReport data (rxBufferSize s) s in
  examinedSlots data = seq 0 (Nat.min (Z.to_nat (byteAt data 65)) 6)
  /\ getTouchCount s' = length (activeSlots data)
  /\ take (getTouchCount s') (touches s')
     = map (slotPoint data (frameWidth s) (frameHeight s)) (activeSlots data)
  /\ getScanTime s' = le16 (byteAt data 66) (byteAt data 67)
  /\ buffered s' = drop 72 (buffered s)
  /\ state s' = state s
  /\ (1 <= byteAt data 65 -> slotStatus data 0 <> 0 ->
      (forall i, (1 <= i)%nat -> Z.of_nat i < byteAt data 65 -> slotStatus data i = 0) ->
      getTouchCount s' = 1%nat
      /\ getTouch 0 s' = slotPoint data (frameWidth s) (frameHeight s) 0)
  /\ getTouchCount (clearTouches s') = 0%nat.
Proof.
  intros Hok Hlen Hsize Hh Hp Hc data s'.
  assert (Hg : gatesPass data = true).
  { unfold gatesPass. subst data. rewrite Hh, Hp, Hc. reflexivity. }
  assert (Hs' : s' = _) by apply (processTouchReport_accepted data _ s Hsize Hg).
  set (s0 := with_touchCount 0%nat
               (with_scanTime (le16 (byteAt (drop 4 data) 62) (byteAt (drop 4 data) 63)) s))
    in Hs'.
  pose proof (parseTouches_spec data (byteAt (drop 4 data) 61) MAX_TOUCH_CONTACTS 0 s0)
    as Hparse.
  destruct (parseTouches_frame MAX_TOUCH_CONTACTS 0 (drop 4 data) (byteAt (drop 4 data) 61) s0)
    as (ts & c & Hfr).
  cbv zeta in Hparse. rewrite Hfr in Hparse, Hs'. rewrite notifyListeners_nf in Hs'.
  destruct Hparse as [Hcount Htake]; [unfold MAX_TOUCH_CONTACTS; lia | simpl; lia
    | subst s0; simpl; rewrite Hlen; done |].
  rewrite byteAt_drop, Nat.sub_0_r in Hcount, Htake.
  change (filter _ (seq 0 _)) with (activeSlots data) in Hcount, Htake.
  simpl in Hcount, Htake.
  assert (Hcnt : getTouchCount s' = length (activeSlots data)).
  { rewrite Hs', consumeBuffer_nf. exact Hcount. }
  assert (Htk : take (getTouchCount s') (touches s')
                = map (slotPoint data (frameWidth s) (frameHeight s)) (activeSlots data)).
  { rewrite Hs', consumeBuffer_nf. exact Htake. }
  split; [reflexivity|]. split; [exact Hcnt|]. split; [exact Htk|].
  split.
  { rewrite Hs', consumeBuffer_nf. unfold getScanTime. simpl.
    rewrite !byteAt_drop. apply uint16_idem. }
  split.
  { rewrite Hs'. rewrite consumeBuffer_buffered; [reflexivity|]. exact Hok. }
  split.
  { rewrite Hs', consumeBuffer_nf. reflexivity. }
  split; [|reflexivity].
  intros H1 H0 Hrest.
  rewrite (activeSlots_single data H1 H0 Hrest) in Hcnt, Htk.
  split; [exact Hcnt|].
  rewrite Hcnt in Htk. simpl in Htk. unfold getTouch.
  destruct (touches s') as [|p ps]; [discriminate Htk|].
  simpl in Htk. injection Htk as ->. reflexivity.
Qed.

(** ** The protocol state machine *)

Ltac effect_by_nf :=
  intros; nf; constructor; simpl; auto.

Lemma effect_refl s : dispatchEffect s s.
Proof. constructor; auto. Qed.

Lemma effect_GetHidDescriptor data len s :
  dispatchEffect s (processGetHidDescriptor data len s).
Proof. unfold processGetHidDescriptor. effect_by_nf. Qed.

Lemma effect_GetHidReportDescriptor data len s :
  dispatchEffect s (processGetHidReportDescriptor data len s).
Proof. unfold processGetHidReportDescriptor. effect_by_nf. Qed.

Lemma effect_GetFrameSize data len s :
  dispatchEffect s (processGetFrameSize data len s).
Proof.
  unfold processGetFrameSize, sendDisableUsbReporting. effect_by_nf.
Qed.

Lemma effect_rejectOneByte format args s :
  dispatchEffect s (rejectOneByte format args s).
Proof. unfold rejectOneByte. effect_by_nf. Qed.

Lemma effect_TouchReport data len s :
  dispatchEffect s (processTouchReport data len s).
Proof.
  destruct (Nat.leb_spec TOUCH_REPORT_SIZE len) as [Hlen|Hlen].
  - destruct (gatesPass data) eqn:Hg.
    + rewrite processTouchReport_accepted by done.
      edestruct parseTouches_frame as (ts & c & ->).
      rewrite notifyListeners_nf. effect_by_nf.
    + destruct (processTouchReport_rejected data len s Hlen Hg) as (f & a & ->).
      apply effect_rejectOneByte.
  - unfold processTouchReport, isValidTouchFrame.
    destruct (Nat.ltb_spec len TOUCH_REPORT_SIZE); [|lia].
    apply effect_rejectOneByte.
Qed.

Lemma effect_EnableReporting data len s :
  dispatchEffect s (processEnableReporting data len s).
Proof. unfold processEnableReporting. effect_by_nf. Qed.

Lemma effect_DisableReporting data len s :
  dispatchEffect s (processDisableReporting data len s).
Proof. unfold processDisableReporting. effect_by_nf. Qed.

Lemma effect_ResetResponse now data len s :
  dispatchEffect s (processResetResponse now data len s).
Proof. unfold processResetResponse, sendGetFrameSize. effect_by_nf. Qed.

Lemma effect_DisableUsbReporting data len s :
  dispatchEffect s (processDisableUsbReporting data len s).
Proof. unfold processDisableUsbReporting, sendEnableReporting. effect_by_nf. Qed.

Lemma effect_EnableUsbReporting data len s :
  dispatchEffect s (processEnableUsbReporting data len s).
Proof. unfold processEnableUsbReporting. effect_by_nf. Qed.

Create HintDb effects discriminated.
#[local] Hint Resolve effect_refl effect_GetHidDescriptor effect_GetHidReportDescriptor
  effect_GetFrameSize effect_TouchReport effect_EnableReporting effect_DisableReporting
  effect_ResetResponse effect_DisableUsbReporting effect_EnableUsbReporting : effects.

Lemma effect_processStreamData now data len s :
  dispatchEffect s (processStreamData now data len s).
Proof.
  unfold processStreamData.
  repeat match goal with
         | |- context [if ?c then _ else _] => destruct c
         end;
    auto with effects.
  effect_by_nf.
Qed.

Lemma effect_synchronize s :
  dispatchEffect s (synchronize s).
Proof.
  unfold synchronize.
  repeat match goal with
         | |- context [if ?c then _ else _] => destruct c
         end; try apply effect_refl; effect_by_nf.
Qed.

Lemma effect_trans s1 s2 s3 :
  dispatchEffect s1 s2 -> dispatchEffect s2 s3 -> dispatchEffect s1 s3.
Proof.
  intros [A1 B1 C1 D1] [A2 B2 C2 D2]. constructor.
  - intuition congruence.
  - intuition congruence.
  - congruence.
  - congruence.
Qed.

(** *** The read loop *)

Lemma readAvailable_nf pending s :
  readAvailable pending s
  = let r := readInto pending (stream s) (rxBuffer s) (rxBufferSize s) in
    with_rxBufferSize (snd r) (with_rxBuffer (snd (fst r)) (with_stream (fst (fst r)) s)).
Proof.
  revert s. induction pending as [|b rest IH]; intros s.
  - by destruct s.
  - cbn [readAvailable readInto].
    destruct (Nat.ltb_spec (rxBufferSize s) RX_BUFFER_SIZE).
    + destruct (Stream.read (stream s)) as [byte st] eqn:E.
      rewrite IH. reflexivity.
    + by destruct s.
Qed.

Lemma readInto_size pending st buf size :
  snd (readInto pending st buf size)
  = if (size <? RX_BUFFER_SIZE)%nat then Nat.min (size + length pending) RX_BUFFER_SIZE
    else size.
Proof.
  revert st buf size. induction pending as [|b rest IH]; intros st buf size; simpl.
  - destruct (Nat.ltb_spec size RX_BUFFER_SIZE); lia.
  - destruct (Nat.ltb_spec size RX_BUFFER_SIZE) as [Hlt|Hge]; [|done].
    rewrite IH. destruct (Nat.ltb_spec (S size) RX_BUFFER_SIZE); lia.
Qed.

Lemma readInto_length pending st buf size :
  length (snd (fst (readInto pending st buf size))) = length buf.
Proof.
  revert st buf size. induction pending as [|b rest IH]; intros st buf size; simpl.
  - done.
  - destruct (size <? RX_BUFFER_SIZE)%nat; [|done].
    rewrite IH. apply length_insert.
Qed.

Lemma rx_ok_buffer_ok s : rx_ok s -> buffer_ok s.
Proof. unfold rx_ok, buffer_ok. lia. Qed.

Lemma afterRead_rx_ok s : rx_ok s -> rx_ok (afterRead s).
Proof.
  unfold rx_ok, afterRead. intros [Hl Hs]. rewrite readAvailable_nf. simpl.
  rewrite readInto_length, readInto_size.
  split; [done|]. destruct (Nat.ltb_spec (rxBufferSize s) RX_BUFFER_SIZE); lia.
Qed.

Lemma afterRead_size s :
  rxBufferSize (afterRead s)
  = if (rxBufferSize s <? RX_BUFFER_SIZE)%nat
    then Nat.min (rxBufferSize s + length (Stream.incoming (stream s))) RX_BUFFER_SIZE
    else rxBufferSize s.
Proof. unfold afterRead. rewrite readAvailable_nf. simpl. apply readInto_size. Qed.

Lemma afterRead_effect s : dispatchEffect s (afterRead s).
Proof. unfold afterRead. rewrite readAvailable_nf. constructor; simpl; auto. Qed.

Lemma afterRead_state s : state (afterRead s) = state s.
Proof. unfold afterRead. by rewrite readAvailable_nf. Qed.

Lemma afterRead_trace s : trace (afterRead s) = trace s.
Proof. unfold afterRead. by rewrite readAvailable_nf. Qed.

Lemma afterRead_idle s : Stream.incoming (stream s) = [] -> afterRead s = s.
Proof. unfold afterRead. by intros ->. Qed.

(** *** One pass *)

Lemma readStreamData_split now s : readStreamData now s = handleBuffered now (afterRead s).
Proof.
  unfold readStreamData, handleBuffered, afterRead.
  destruct (_ <=? _)%nat; [done|]. destruct (_ <? _)%nat; [done|].
  by destruct (state _).
Qed.

Lemma loop_split now s : loop now s = readStreamData now (checkTimeout now s).
Proof. reflexivity. Qed.

Lemma effect_handleBuffered now s : dispatchEffect s (handleBuffered now s).
Proof.
  unfold handleBuffered.
  destruct (_ <=? _)%nat; [effect_by_nf|].
  destruct (_ <? _)%nat; [apply effect_refl|].
  destruct (state s); auto using effect_processStreamData, effect_synchronize.
Qed.

Lemma effect_readStreamData now s : dispatchEffect s (readStreamData now s).
Proof.
  rewrite readStreamData_split.
  eapply effect_trans; [apply afterRead_effect | apply effect_handleBuffered].
Qed.

(** The timeout check is idle unless the engine is INITIALIZING with a
    positive recorded start time. *)
Lemma checkTimeout_idle now s :
  state s <> INITIALIZING \/ initializingStartTimeMs s <= 0 -> checkTimeout now s = s.
Proof.
  intros H. unfold checkTimeout.
  destruct (TouchState_eqb (state s) INITIALIZING) eqn:E; [|done].
  apply TouchState_eqb_eq in E. destruct H as [H|H]; [done|].
  by destruct (Z.ltb_spec 0 (initializingStartTimeMs s)); [lia|].
Qed.

(** A pass with nothing to read and fewer than two buffered bytes does
    nothing after the timeout check. *)
Lemma readStreamData_idle now s :
  Stream.incoming (stream s) = [] -> (rxBufferSize s < 2)%nat ->
  readStreamData now s = s.
Proof.
  intros Hin Hsz. rewrite readStreamData_split, afterRead_idle by done.
  unfold handleBuffered.
  destruct (Nat.leb_spec RX_BUFFER_SIZE (rxBufferSize s)) as [H|H];
    [unfold RX_BUFFER_SIZE in H; lia|].
  by destruct (Nat.ltb_spec (rxBufferSize s) 2); [|lia].
Qed.

(** *** Runs of the engine *)

Lemma run_snoc steps st s : run (steps ++ [st]) s = step st (run steps s).
Proof. unfold run. by rewrite fold_left_app. Qed.

Lemma begin_state now s : state (begin now s) = INITIALIZING.
Proof. unfold begin, sendReset. by nf. Qed.

Lemma begin_start now s : initializingStartTimeMs (begin now s) = ulong now.
Proof. unfold begin, sendReset. by nf. Qed.

Lemma flushPending_incoming st :
  Stream.incoming (flushPending (Stream.incoming st) st) = [].
Proof.
  destruct st as [inc out]. simpl. revert out.
  induction inc as [|b rest IH]; intros out; [done|]. simpl. apply IH.
Qed.

Lemma begin_incoming now s : Stream.incoming (stream (begin now s)) = [].
Proof. unfold begin, sendReset. nf. simpl. apply flushPending_incoming. Qed.

Lemma begin_rx now s :
  rxBuffer (begin now s) = rxBuffer s /\ rxBufferSize (begin now s) = rxBufferSize s.
Proof. unfold begin, sendReset. by nf. Qed.

Lemma dispatch_reset_response now (data : list Z) (len : nat) (s : DisplaxTouch) :
  byteAt data 0 = 0x6E -> byteAt data 1 = 0x22 ->
  processStreamData now data len s = processResetResponse now data len s.
Proof.
  intros H0 H1. unfold processStreamData. rewrite H0, H1.
  change (uint16 (Z.lor 110 (Z.shiftl 34 8))) with 8814.
  cbn [commandValue Z.eqb Pos.eqb andb]. reflexivity.
Qed.

Lemma dispatch_enable_reporting now (data : list Z) (len : nat) (s : DisplaxTouch) :
  byteAt data 0 = 0x05 -> byteAt data 1 = 0x00 ->
  processStreamData now data len s = processEnableReporting data len s.
Proof.
  intros H0 H1. unfold processStreamData. rewrite H0, H1.
  change (uint16 (Z.lor 5 (Z.shiftl 0 8))) with 5.
  cbn [commandValue Z.eqb Pos.eqb andb]. reflexivity.
Qed.

Lemma handleBuffered_dispatch now s :
  (2 <= rxBufferSize s < RX_BUFFER_SIZE)%nat -> state s <> SYNCHRONIZING ->
  handleBuffered now s = processStreamData now (rxBuffer s) (rxBufferSize s) s.
Proof.
  intros Hsz Hst. unfold handleBuffered.
  destruct (Nat.leb_spec RX_BUFFER_SIZE (rxBufferSize s)); [lia|].
  destruct (Nat.ltb_spec (rxBufferSize s) 2); [lia|].
  by destruct (state s).
Qed.

(** C1 (amended).  In INITIALIZATION_FAILED the timeout check of [loop] is
    idle and a pass never moves the state to DISCONNECTED or INITIALIZING,
    but received bytes are still dispatched: after a pass the state is
    INITIALIZATION_FAILED, CONNECTED, SYNCHRONIZED or SYNCHRONIZING.  A reset
    response at the head of the buffer moves it to CONNECTED and an
    enable-reporting response to SYNCHRONIZED.  While fewer than two bytes
    are buffered after reading, the pass leaves the state alone.  [begin]
    moves it to INITIALIZING. *)
Theorem C1_failed_state_still_dispatches (s : DisplaxTouch) :
  state s = INITIALIZATION_FAILED ->
  (forall now, checkTimeout now s = s)
  /\ (forall now,
        state (loop now s) = INITIALIZATION_FAILED \/ state (loop now s) = SYNCHRONIZING
        \/ state (loop now s) = SYNCHRONIZED \/ state (loop now s) = CONNECTED)
  /\ (forall now,
        (rxBufferSize (afterRead s) < 2)%nat -> state (loop now s) = INITIALIZATION_FAILED)
  /\ (forall now,
        (2 <= rxBufferSize (afterRead s) < RX_BUFFER_SIZE)%nat ->
        byteAt (rxBuffer (afterRead s)) 0 = 0x6E ->
        byteAt (rxBuffer (afterRead s)) 1 = 0x22 ->
        state (loop now s) = CONNECTED)
  /\ (forall now,
        (2 <= rxBufferSize (afterRead s) < RX_BUFFER_SIZE)%nat ->
        byteAt (rxBuffer (afterRead s)) 0 = 0x05 ->
        byteAt (rxBuffer (afterRead s)) 1 = 0x00 ->
        state (loop now s) = SYNCHRONIZED)
  /\ (forall now, state (begin now s) = INITIALIZING).
Proof.
  intros Hst.
  assert (Hidle : forall now, checkTimeout now s = s).
  { intros now. apply checkTimeout_idle. left. congruence. }
  assert (Hst' : state (afterRead s) = INITIALIZATION_FAILED)
    by (by rewrite afterRead_state).
  split; [exact Hidle|]. split; [|split; [|split; [|split]]].
  - intros now. rewrite loop_split, Hidle.
    destruct (effect_readStreamData now s) as [H _ _ _]. rewrite Hst in H. exact H.
  - intros now Hsz. rewrite loop_split, Hidle, readStreamData_split.
    unfold handleBuffered.
    destruct (Nat.leb_spec RX_BUFFER_SIZE (rxBufferSize (afterRead s))) as [H|H];
      [unfold RX_BUFFER_SIZE in H; lia|].
    by destruct (Nat.ltb_spec (rxBufferSize (afterRead s)) 2); [|lia].
  - intros now Hsz H0 H1. rewrite loop_split, Hidle, readStreamData_split.
    rewrite handleBuffered_dispatch by (done || congruence).
    rewrite dispatch_reset_response by done.
    unfold processResetResponse, sendGetFrameSize. by nf.
  - intros now Hsz H0 H1. rewrite loop_split, Hidle, readStreamData_split.
    rewrite handleBuffered_dispatch by (done || congruence).
    rewrite dispatch_enable_reporting by done.
    unfold processEnableReporting. by nf.
  - intros now. apply begin_state.
Qed.

(** C1, as stated, fails: an engine that timed out and then receives the
    reset response [6E 22] leaves INITIALIZATION_FAILED on the next pass,
    without [begin]. *)
Lemma C1_counterexample :
  let failed := loop 1001 (begin 1 fresh) in
  state failed = INITIALIZATION_FAILED
  /\ state (loop 1002 (receive [0x6E; 0x22] failed)) = CONNECTED.
Proof. vm_compute. split; reflexivity. Qed.

(** ** Frame dimensions *)

Ltac keeps_by_nf := intros; nf; split; reflexivity.

Lemma keepsFrame_TouchReport data len s : keepsFrame s (processTouchReport data len s).
Proof.
  destruct (Nat.leb_spec TOUCH_REPORT_SIZE len) as [Hlen|Hlen].
  - destruct (gatesPass data) eqn:Hg.
    + rewrite processTouchReport_accepted by done.
      edestruct parseTouches_frame as (ts & c & ->).
      rewrite notifyListeners_nf. keeps_by_nf.
    + destruct (processTouchReport_rejected data len s Hlen Hg) as (f & a & ->).
      unfold rejectOneByte. keeps_by_nf.
  - unfold processTouchReport, isValidTouchFrame.
    destruct (Nat.ltb_spec len TOUCH_REPORT_SIZE); [|lia]. keeps_by_nf.
Qed.

Lemma keepsFrame_synchronize s : keepsFrame s (synchronize s).
Proof.
  unfold synchronize.
  repeat match goal with
         | |- context [if ?c then _ else _] => destruct c
         end; keeps_by_nf.
Qed.

Lemma keepsFrame_checkTimeout now s : keepsFrame s (checkTimeout now s).
Proof.
  unfold checkTimeout.
  repeat match goal with
         | |- context [if ?c then _ else _] => destruct c
         end; keeps_by_nf.
Qed.

Lemma keepsFrame_afterRead s : keepsFrame s (afterRead s).
Proof. unfold afterRead. rewrite readAvailable_nf. split; reflexivity. Qed.

Lemma processStreamData_frame now data len s :
  let s' := processStreamData now data len s in
  if (reportIdOf data =? commandValue GET_FRAME_SIZE) && (GET_FRAME_SIZE_SIZE <=? len)%nat
  then frameWidth s' = le16 (byteAt data 2) (byteAt data 3)
       /\ frameHeight s' = le16 (byteAt data 4) (byteAt data 5)
  else keepsFrame s s'.
Proof.
  unfold processStreamData, reportIdOf. generalize (uint16 (Z.lor (byteAt data 0)
    (Z.shiftl (byteAt data 1) 8))) as r. intros r. cbv zeta.
  destruct (Z.eqb_spec r (commandValue GET_HID_DESCRIPTOR)) as [->|_]; cbn [andb].
  { change (commandValue GET_HID_DESCRIPTOR =? commandValue GET_FRAME_SIZE) with false.
    cbn [andb]. destruct (_ <=? _)%nat.
    - unfold processGetHidDescriptor. keeps_by_nf.
    - change (commandValue GET_HID_DESCRIPTOR =? commandValue ENABLE_REPORTING) with false.
      change (commandValue GET_HID_DESCRIPTOR =? commandValue DISABLE_REPORTING) with false.
      change (commandValue GET_HID_DESCRIPTOR =? commandValue RESET_RESPONSE) with false.
      change (commandValue GET_HID_DESCRIPTOR =? commandValue DISABLE_USB_REPORTING)
        with false.
      change (commandValue GET_HID_DESCRIPTOR =? commandValue ENABLE_USB_REPORTING)
        with false.
      change (commandValue GET_HID_DESCRIPTOR =? commandValue GET_HID_REPORT_DESCRIPTION)
        with false.
      change (commandValue GET_HID_DESCRIPTOR =? commandValue TOUCH_REPORT_ID) with false.
      cbn [andb]. destruct (_ <=? _)%nat; keeps_by_nf. }
  destruct (Z.eqb_spec r (commandValue GET_HID_REPORT_DESCRIPTION)) as [->|_]; cbn [andb].
  { change (commandValue GET_HID_REPORT_DESCRIPTION =? commandValue GET_FRAME_SIZE)
      with false.
    cbn [andb]. destruct (_ <=? _)%nat.
    - unfold processGetHidReportDescriptor. keeps_by_nf.
    - change (commandValue GET_HID_REPORT_DESCRIPTION =? commandValue ENABLE_REPORTING)
        with false.
      change (commandValue GET_HID_REPORT_DESCRIPTION =? commandValue DISABLE_REPORTING)
        with false.
      change (commandValue GET_HID_REPORT_DESCRIPTION =? commandValue RESET_RESPONSE)
        with false.
      change (commandValue GET_HID_REPORT_DESCRIPTION =? commandValue DISABLE_USB_REPORTING)
        with false.
      change (commandValue GET_HID_REPORT_DESCRIPTION =? commandValue ENABLE_USB_REPORTING)
        with false.
      change (commandValue GET_HID_REPORT_DESCRIPTION =? commandValue TOUCH_REPORT_ID)
        with false.
      cbn [andb]. destruct (_ <=? _)%nat; keeps_by_nf. }
  destruct (r =? commandValue GET_FRAME_SIZE); cbn [andb].
  { destruct (GET_FRAME_SIZE_SIZE <=? len)%nat.
    - unfold processGetFrameSize, sendDisableUsbReporting. nf. split; reflexivity.
    - repeat match goal with
             | |- context [if ?c then _ else _] => destruct c
             end;
        try apply keepsFrame_TouchReport;
        unfold processEnableReporting, processDisableReporting, processResetResponse,
          processDisableUsbReporting, processEnableUsbReporting, sendGetFrameSize,
          sendEnableReporting; keeps_by_nf. }
  repeat match goal with
         | |- context [if ?c then _ else _] => destruct c
         end;
    try apply keepsFrame_TouchReport;
    unfold processEnableReporting, processDisableReporting, processResetResponse,
      processDisableUsbReporting, processEnableUsbReporting, sendGetFrameSize,
      sendEnableReporting; keeps_by_nf.
Qed.

Lemma uint16_small (v : Z) : 0 <= v < 65536 -> uint16 v = v.
Proof. intros H. unfold uint16. apply Z.mod_small. lia. Qed.

(** C4 (amended).  [setFrameSize w h] makes [getFrameWidth] and
    [getFrameHeight] return [w] and [h].  The values are not sticky: a pass
    that dispatches a GET_FRAME_SIZE response overwrites them with the
    little-endian dimensions of the response, and every other pass leaves
    them as they are (last writer wins). *)
Theorem C4_frame_size_last_writer_wins (w h : Z) (s : DisplaxTouch) :
  0 <= w < 65536 -> 0 <= h < 65536 ->
  (getFrameWidth (setFrameSize w h s) = w /\ getFrameHeight (setFrameSize w h s) = h)
  /\ forall now s1,
       let t := afterRead (checkTimeout now s1) in
       let s2 := loop now s1 in
       if frameSizeResponseDispatched t
       then getFrameWidth s2 = le16 (byteAt (rxBuffer t) 2) (byteAt (rxBuffer t) 3)
            /\ getFrameHeight s2 = le16 (byteAt (rxBuffer t) 4) (byteAt (rxBuffer t) 5)
       else getFrameWidth s2 = getFrameWidth s1 /\ getFrameHeight s2 = getFrameHeight s1.
Proof.
  intros Hw Hh. split.
  { unfold setFrameSize, getFrameWidth, getFrameHeight. nf. simpl.
    by rewrite !uint16_small. }
  intros now s1 t s2. subst s2. rewrite loop_split, readStreamData_split. fold t.
  assert (Hk : keepsFrame s1 t).
  { destruct (keepsFrame_checkTimeout now s1) as [A B].
    destruct (keepsFrame_afterRead (checkTimeout now s1)) as [C D].
    split; unfold t; congruence. }
  destruct Hk as [Hkw Hkh]. unfold getFrameWidth, getFrameHeight.
  rewrite <- Hkw, <- Hkh. clearbody t. clear Hkw Hkh.
  unfold frameSizeResponseDispatched, handleBuffered.
  destruct (Nat.leb_spec RX_BUFFER_SIZE (rxBufferSize t)) as [Hov|Hov]; cbn [negb andb].
  { nf. split; reflexivity. }
  destruct (TouchState_eqb (state t) SYNCHRONIZING) eqn:Est; cbn [negb andb].
  { apply TouchState_eqb_eq in Est. rewrite Est.
    destruct (_ <? _)%nat; [split; reflexivity|]. apply keepsFrame_synchronize. }
  assert (Hns : state t <> SYNCHRONIZING).
  { intros E. rewrite E in Est. discriminate Est. }
  pose proof (processStreamData_frame now (rxBuffer t) (rxBufferSize t) t) as Hp.
  cbv zeta in Hp.
  destruct (Nat.ltb_spec (rxBufferSize t) 2) as [Hlt|Hge].
  { replace ((GET_FRAME_SIZE_SIZE <=? rxBufferSize t)%nat) with false.
    - rewrite andb_false_r. split; reflexivity.
    - symmetry. apply Nat.leb_gt. unfold GET_FRAME_SIZE_SIZE. lia. }
  replace (match state t with
           | SYNCHRONIZING => synchronize t
           | _ => processStreamData now (rxBuffer t) (rxBufferSize t) t
           end) with (processStreamData now (rxBuffer t) (rxBufferSize t) t)
    by (by destruct (state t)).
  exact Hp.
Qed.

(** C4, as stated, fails: a frame-size response received after the manual
    override replaces the override. *)
Lemma C4_counterexample :
  let s := setFrameSize 800 600 fresh in
  let s' := loop 5 (receive [0x03; 0x00; 0x01; 0x00; 0x02; 0x00] s) in
  getFrameWidth s = 800 /\ getFrameHeight s = 600
  /\ getFrameWidth s' = 1 /\ getFrameHeight s' = 2.
Proof. vm_compute. repeat split; reflexivity. Qed.

(** ** Overflow *)

Lemma synchronize_leaves s :
  buffer_ok s -> state (synchronize s) <> state s ->
  state (synchronize s) = SYNCHRONIZED /\ exists k, markerAt (buffered s) k.
Proof.
  intros Hok. unfold synchronize.
  destruct (_ <? 4)%nat; [done|].
  destruct (findFrameHeader (rxBuffer s) (rxBufferSize s)) as [|p|p] eqn:E.
  - simpl. intros _. split; [by nf|].
    destruct (findFrameHeader_found s 0 Hok E) as (k & _ & [Hm _]); [lia|]. eauto.
  - change (0 <? Z.pos p) with true. cbv iota. intros _. split; [by nf|].
    destruct (findFrameHeader_found s _ Hok E) as (k & _ & [Hm _]); [lia|]. eauto.
  - change (0 <? Z.neg p) with false. change (Z.neg p =? 0) with false. cbv iota.
    nf. simpl. done.
Qed.

Lemma synchronize_rx_ok s : rx_ok s -> rx_ok (synchronize s).
Proof.
  intros Hrx. pose proof (rx_ok_buffer_ok s Hrx) as Hok. destruct Hrx as [Hl Hs].
  unfold synchronize. destruct (_ <? 4)%nat; [done|].
  repeat match goal with
         | |- context [if ?c then _ else _] => destruct c
         end; unfold rx_ok; rewrite ?setState_nf, ?log_nf; simpl.
  - match goal with |- context [consumeBuffer ?n ?x] =>
      change (rx_ok (consumeBuffer n x));
      pose proof (consumeBuffer_length n x Hok) as H1;
      pose proof (consumeBuffer_size n x) as H2 end.
    unfold rx_ok. simpl in *. rewrite H1, H2. lia.
  - done.
  - match goal with |- context [consumeBuffer ?n ?x] =>
      change (rx_ok (consumeBuffer n x));
      pose proof (consumeBuffer_length n x Hok) as H1;
      pose proof (consumeBuffer_size n x) as H2 end.
    unfold rx_ok. simpl in *. rewrite H1, H2. lia.
Qed.

Lemma loop_synchronizing now s :
  rx_ok s -> state s = SYNCHRONIZING ->
  rx_ok (loop now s)
  /\ (state (loop now s) = SYNCHRONIZING
      \/ state (loop now s) = SYNCHRONIZED /\ exists k, markerAt (buffered (afterRead s)) k).
Proof.
  intros Hrx Hst. rewrite loop_split, checkTimeout_idle by (left; congruence).
  rewrite readStreamData_split.
  pose proof (afterRead_rx_ok s Hrx) as Hrx'.
  assert (Hst' : state (afterRead s) = SYNCHRONIZING) by (by rewrite afterRead_state).
  generalize dependent (afterRead s). intros t Hrx' Hst'.
  unfold handleBuffered.
  destruct (_ <=? _)%nat.
  { nf. split; [|by left]. destruct Hrx' as [Hl _]. split; simpl; [done|lia]. }
  destruct (_ <? 2)%nat; [by auto|].
  rewrite Hst'. split; [by apply synchronize_rx_ok|].
  destruct (decide (state (synchronize t) = SYNCHRONIZING)) as [?|Hne]; [by left|].
  right. apply synchronize_leaves; [by apply rx_ok_buffer_ok | congruence].
Qed.

Lemma run_markerFree steps s :
  rx_ok s -> state s = SYNCHRONIZING -> markerFree steps s ->
  state (run steps s) = SYNCHRONIZING.
Proof.
  revert s. induction steps as [|[now|bytes] rest IH]; intros s Hrx Hst Hfree; simpl in *.
  - done.
  - destruct Hfree as [Hno Hfree].
    destruct (loop_synchronizing now s Hrx Hst) as [Hrx' [Hs|[_ [k Hk]]]].
    + by apply IH.
    + by apply Hno in Hk.
  - by apply IH.
Qed.

(** C6.  If the bytes already buffered and the bytes the transport holds
    reach the capacity of 2048, the pass discards the whole buffer and leaves
    the state SYNCHRONIZING (not SYNCHRONIZED); an installed log observer
    receives the overflow warning; and in every later run of passes and
    arrivals the state stays SYNCHRONIZING as long as no frame marker shows
    up among the buffered bytes. *)
Theorem C6_overflow_forces_resync (now : Z) (s : DisplaxTouch) :
  rx_ok s ->
  (RX_BUFFER_SIZE <= rxBufferSize s + length (Stream.incoming (stream s)))%nat ->
  let s' := loop now s in
  rxBufferSize s' = 0%nat
  /\ buffered s' = []
  /\ state s' = SYNCHRONIZING
  /\ (forall cb, logCallback s = Some cb ->
      exists pre post,
        trace s'
        = (trace s ++ pre
           ++ [Logged cb Warn "RX buffer overflow, resetting and searching for frame header" []]
           ++ post)%list)
  /\ (forall steps, markerFree steps s' -> state (run steps s') = SYNCHRONIZING).
Proof.
  intros Hrx Hfull s'.
  assert (Hov : (RX_BUFFER_SIZE <= rxBufferSize (afterRead (checkTimeout now s)))%nat).
  { rewrite afterRead_size.
    assert (E : rxBufferSize (checkTimeout now s) = rxBufferSize s
                /\ stream (checkTimeout now s) = stream s).
    { unfold checkTimeout.
      repeat match goal with
             | |- context [if ?c then _ else _] => destruct c
             end; nf; done. }
    destruct E as [-> ->].
    destruct (Nat.ltb_spec (rxBufferSize s) RX_BUFFER_SIZE); lia. }
  assert (Hs' : s' = setState SYNCHRONIZING
                       (with_rxBufferSize 0%nat
                          (warn "RX buffer overflow, resetting and searching for frame header"
                             [] (afterRead (checkTimeout now s))))).
  { unfold s'. rewrite loop_split, readStreamData_split. unfold handleBuffered.
    by destruct (Nat.leb_spec RX_BUFFER_SIZE
                   (rxBufferSize (afterRead (checkTimeout now s)))); [|lia]. }
  assert (Hsz : rxBufferSize s' = 0%nat) by (rewrite Hs'; by nf).
  assert (Hst : state s' = SYNCHRONIZING) by (rewrite Hs'; by nf).
  split; [done|]. split; [unfold buffered; by rewrite Hsz|]. split; [done|]. split.
  - intros cb Hcb. rewrite Hs'. nf. simpl. rewrite afterRead_trace.
    assert (Hlc : logCallback (afterRead (checkTimeout now s)) = Some cb).
    { destruct (afterRead_effect (checkTimeout now s)) as [_ _ -> _].
      unfold checkTimeout.
      repeat match goal with
             | |- context [if ?c then _ else _] => destruct c
             end; nf; done. }
    unfold logged at 1. rewrite Hlc.
    assert (Htr : exists pre, trace (checkTimeout now s) = (trace s ++ pre)%list).
    { unfold checkTimeout.
      repeat match goal with
             | |- context [if ?c then _ else _] => destruct c
             end; nf; simpl; try (exists []; by rewrite app_nil_r).
      rewrite <- app_assoc. eauto. }
    destruct Htr as [pre ->]. eexists pre, _. rewrite <- !app_assoc. reflexivity.
  - intros steps Hfree. apply run_markerFree; [|done|done].
    rewrite Hs'. nf. destruct (afterRead_rx_ok (checkTimeout now s)) as [Hl _].
    + unfold checkTimeout.
      repeat match goal with
             | |- context [if ?c then _ else _] => destruct c
             end; nf; done.
    + split; simpl; [done|lia].
Qed.

(** ** Initialization timeout *)

Lemma loop_zero_start now s :
  initializingStartTimeMs s = 0 -> state s <> INITIALIZATION_FAILED ->
  initializingStartTimeMs (loop now s) = 0 /\ state (loop now s) <> INITIALIZATION_FAILED.
Proof.
  intros H0 Hst. rewrite loop_split, checkTimeout_idle by (right; lia).
  destruct (effect_readStreamData now s) as [A B _ _]. split.
  - destruct B; congruence.
  - destruct A as [A|[A|[A|A]]]; congruence.
Qed.

Lemma run_zero_start steps s :
  initializingStartTimeMs s = 0 -> state s <> INITIALIZATION_FAILED ->
  initializingStartTimeMs (run steps s) = 0 /\ state (run steps s) <> INITIALIZATION_FAILED.
Proof.
  revert s. induction steps as [|[now|bytes] rest IH]; intros s H0 Hst; simpl.
  - done.
  - destruct (loop_zero_start now s H0 Hst). by apply IH.
  - by apply IH.
Qed.

(** C10.  When the clock reads 0 inside [begin], the recorded start time is
    the value that also means that no timeout is pending.  From then on, in every
    run of passes (whatever their clock readings) and arrivals, the timeout
    check is idle and the state never becomes INITIALIZATION_FAILED. *)
Theorem C10_zero_clock_disables_timeout (s : DisplaxTouch) (steps : list Step) :
  let s0 := begin 0 s in
  state s0 = INITIALIZING
  /\ initializingStartTimeMs s0 = 0
  /\ initializingStartTimeMs (run steps s0) = 0
  /\ (forall now, checkTimeout now (run steps s0) = run steps s0)
  /\ state (run steps s0) <> INITIALIZATION_FAILED.
Proof.
  intros s0.
  assert (Hst : state s0 = INITIALIZING) by apply begin_state.
  assert (H0 : initializingStartTimeMs s0 = 0) by apply begin_start.
  destruct (run_zero_start steps s0 H0) as [Hr0 Hrs]; [congruence|].
  repeat split; try done.
  intros now. apply checkTimeout_idle. right. lia.
Qed.

(** With a positive recorded start time, nothing to read and fewer than two
    buffered bytes, the timeout fires in the first pass whose elapsed time
    reaches 1000, once: the state change is notified once and every later
    pass does nothing. *)
Lemma timeout_fires_once (s : DisplaxTouch) :
  state s = INITIALIZING ->
  0 < initializingStartTimeMs s ->
  Stream.incoming (stream s) = [] ->
  (rxBufferSize s < 2)%nat ->
  (forall now, ulong (ulong now - initializingStartTimeMs s) < INITIALIZATION_TIMEOUT_MS ->
     loop now s = s)
  /\ (forall now, INITIALIZATION_TIMEOUT_MS <= ulong (ulong now - initializingStartTimeMs s) ->
        state (loop now s) = INITIALIZATION_FAILED
        /\ trace (loop now s)
           = (trace s
              ++ logged Warn "Initialization timeout - no response from sensor in %lu ms"
                   [ArgNum INITIALIZATION_TIMEOUT_MS] s
              ++ logged Info "State changed from %s to %s"
                   [ArgStr "INITIALIZING"; ArgStr "INITIALIZATION_FAILED"] s
              ++ match stateChangeCallback s with
                 | None => []
                 | Some cb => [StateChanged cb INITIALIZATION_FAILED INITIALIZING]
                 end)%list
        /\ forall now', loop now' (loop now s) = loop now s).
Proof.
  intros Hst Hpos Hin Hsz. split.
  - intros now Hlt. rewrite loop_split. unfold checkTimeout.
    rewrite Hst. cbn [TouchState_eqb andb].
    destruct (Z.ltb_spec 0 (initializingStartTimeMs s)); [|lia].
    destruct (Z.leb_spec INITIALIZATION_TIMEOUT_MS
                (ulong (ulong now - initializingStartTimeMs s))); [lia|].
    by apply readStreamData_idle.
  - intros now Hge.
    assert (E : loop now s
                = with_initializingStartTimeMs 0
                    (setState INITIALIZATION_FAILED
                       (warn "Initialization timeout - no response from sensor in %lu ms"
                          [ArgNum INITIALIZATION_TIMEOUT_MS] s))).
    { rewrite loop_split. unfold checkTimeout.
      rewrite Hst. cbn [TouchState_eqb andb].
      destruct (Z.ltb_spec 0 (initializingStartTimeMs s)); [|lia].
      destruct (Z.leb_spec INITIALIZATION_TIMEOUT_MS
                  (ulong (ulong now - initializingStartTimeMs s))); [|lia].
      apply readStreamData_idle; by nf. }
    rewrite E. split; [by nf|]. split.
    + nf. simpl. unfold stateEvents. simpl. rewrite Hst. simpl.
      unfold logged. simpl. by rewrite <- !app_assoc.
    + intros now'. rewrite loop_split, checkTimeout_idle by (left; by nf).
      apply readStreamData_idle; by nf.
Qed.

(** C8 at the failing input.  [begin] on a fresh engine with the clock at 0,
    no input: the passes at clock 1000 and later leave the state
    INITIALIZING and notify nothing, although the elapsed time has reached
    the timeout.  With the clock at 1 the same passes time out. *)
Theorem C8_timeout_missed_when_clock_reads_zero :
  let observed := setStateChangeCallback (Some 7%nat) fresh in
  let s0 := begin 0 observed in
  state (loop 1000 s0) = INITIALIZING
  /\ state (loop 100000 (loop 1000 s0)) = INITIALIZING
  /\ trace (loop 100000 (loop 1000 s0)) = trace s0
  /\ state (loop 1001 (begin 1 observed)) = INITIALIZATION_FAILED.
Proof. vm_compute. repeat split; reflexivity. Qed.

(** ** Listener registry *)

Lemma shiftDown_split iterations shiftIndex ls ids :
  shiftDown iterations shiftIndex ls ids
  = (shiftList None iterations shiftIndex ls, shiftList 0 iterations shiftIndex ids).
Proof.
  revert shiftIndex ls ids. induction iterations as [|k IH]; intros; simpl; [done|].
  apply IH.
Qed.

Lemma length_shiftList {A} (d : A) iterations shiftIndex (l : list A) :
  length (shiftList d iterations shiftIndex l) = length l.
Proof.
  revert shiftIndex l. induction iterations as [|k IH]; intros; simpl; [done|].
  rewrite IH. apply length_insert.
Qed.

Lemma shiftList_take {A} (d : A) iterations shiftIndex (l : list A) :
  (shiftIndex + iterations < length l)%nat ->
  take (shiftIndex + iterations) (shiftList d iterations shiftIndex l)
  = (take shiftIndex l ++ take iterations (drop (S shiftIndex) l))%list.
Proof.
  revert shiftIndex l. induction iterations as [|k IH]; intros i l Hlen; simpl.
  - rewrite Nat.add_0_r, take_0. by rewrite app_nil_r.
  - destruct (lookup_lt_is_Some_2 l (S i)) as [x Hx]; [lia|].
    rewrite Hx. simpl.
    replace (i + S k)%nat with (S i + k)%nat by lia.
    rewrite IH by (rewrite length_insert; lia).
    rewrite (take_S_r _ _ x) by (apply list_lookup_insert_eq; lia).
    rewrite take_insert_ge by lia.
    rewrite drop_insert_lt by lia.
    rewrite (drop_S l x (S i) Hx). simpl. by rewrite <- app_assoc.
Qed.

Lemma registered_take s :
  registered s = take (listenerCount s) (zip (listenerIds s) (listeners s)).
Proof. unfold registered. by rewrite zip_with_take. Qed.

Lemma registered_ids s :
  (listenerCount s <= length (listeners s))%nat ->
  (registered s).*1 = take (listenerCount s) (listenerIds s).
Proof.
  intros H. unfold registered. apply fst_zip. rewrite !length_take. lia.
Qed.

Lemma zip_delete {A B} (i : nat) (l : list A) (k : list B) :
  zip (delete i l) (delete i k) = delete i (zip l k).
Proof.
  revert l k. induction i as [|i IH]; intros [|a l] [|b k]; simpl; try done.
  - by destruct l.
  - by rewrite IH.
Qed.

(** Removing the entry at [index]: what the shift and the decrement leave. *)
Lemma registered_after_shift index s :
  (index < listenerCount s)%nat ->
  (listenerCount s <= length (listeners s))%nat ->
  (listenerCount s <= length (listenerIds s))%nat ->
  let r := shiftDown (listenerCount s - 1 - index) index (listeners s) (listenerIds s) in
  registered (with_registry (fst r) (listenerCount s - 1)%nat (snd r) (nextListenerId s) s)
  = delete index (registered s).
Proof.
  intros Hi Hl1 Hl2 r. subst r. rewrite shiftDown_split. unfold registered. simpl.
  set (k := (listenerCount s - 1 - index)%nat).
  replace (listenerCount s - 1)%nat with (index + k)%nat by lia.
  rewrite !shiftList_take by lia.
  rewrite <- zip_delete, !delete_take_drop.
  rewrite !take_take, !Nat.min_l by lia.
  rewrite !take_drop_commute.
  by replace (S index + k)%nat with (listenerCount s) by lia.
Qed.

Lemma removeFrom_spec iterations index listenerId s :
  (index + iterations = listenerCount s)%nat ->
  (listenerCount s <= length (listeners s))%nat ->
  (listenerCount s <= length (listenerIds s))%nat ->
  (fst (removeFrom iterations index listenerId s) = false
   /\ snd (removeFrom iterations index listenerId s) = s
   /\ forall j, (index <= j < listenerCount s)%nat -> listenerIds s !! j <> Some listenerId)
  \/ exists j cb,
       (index <= j < listenerCount s)%nat
       /\ registered s !! j = Some (listenerId, cb)
       /\ (forall j', (index <= j' < j)%nat -> listenerIds s !! j' <> Some listenerId)
       /\ fst (removeFrom iterations index listenerId s) = true
       /\ registered (snd (removeFrom iterations index listenerId s))
          = delete j (registered s)
       /\ listenerCount (snd (removeFrom iterations index listenerId s))
          = (listenerCount s - 1)%nat
       /\ nextListenerId (snd (removeFrom iterations index listenerId s)) = nextListenerId s
       /\ length (listeners (snd (removeFrom iterations index listenerId s)))
          = length (listeners s)
       /\ length (listenerIds (snd (removeFrom iterations index listenerId s)))
          = length (listenerIds s).
Proof.
  revert index. induction iterations as [|k IH]; intros index Hsum Hl1 Hl2.
  - left. simpl. repeat split. intros j Hj. lia.
  - cbn [removeFrom].
    destruct (lookup_lt_is_Some_2 (listenerIds s) index) as [x Hx]; [lia|].
    destruct (lookup_lt_is_Some_2 (listeners s) index) as [cb Hcb]; [lia|].
    rewrite Hx. change (default 0 (Some x)) with x.
    destruct (Z.eqb_spec x listenerId) as [->|Hne].
    + right. exists index, cb.
      pose proof (registered_after_shift index s) as Hsh. cbv zeta in Hsh.
      destruct (shiftDown (listenerCount s - 1 - index) index (listeners s) (listenerIds s))
        as [ls ids] eqn:E.
      assert (Hlen : length ls = length (listeners s) /\ length ids = length (listenerIds s)).
      { rewrite shiftDown_split in E. injection E as <- <-.
        by rewrite !length_shiftList. }
      simpl in *. repeat split; try lia; try apply Hlen.
      * rewrite registered_take, lookup_take_lt by lia.
        rewrite lookup_zip_with, Hx, Hcb. reflexivity.
      * apply Hsh; lia.
    + destruct (IH (S index)) as [(Hf & Hs & Hno)|(j & cb' & Hj & Hr & Hfirst & Hrest)];
        [lia|done|done| |].
      * left. repeat split; try done. intros j Hj.
        destruct (decide (j = index)) as [->|?]; [congruence|]. apply Hno. lia.
      * right. exists j, cb'. repeat split; try lia; try tauto.
        intros j' Hj'. destruct (decide (j' = index)) as [->|?]; [congruence|].
        apply Hfirst. lia.
Qed.

Lemma int32_small (v : Z) : - 2 ^ 31 <= v <= INT_MAX -> int32 v = v.
Proof.
  unfold int32, INT_MAX. intros H. rewrite Z.mod_small; lia.
Qed.

Lemma StronglySorted_lt_NoDup (l : list Z) : StronglySorted Z.lt l -> NoDup l.
Proof.
  induction 1 as [|a l Hs IH Hall]; constructor; [|done].
  intros Hin. rewrite Forall_forall in Hall. specialize (Hall a Hin). lia.
Qed.

Lemma StronglySorted_delete (l : list Z) (i : nat) :
  StronglySorted Z.lt l -> StronglySorted Z.lt (delete i l).
Proof.
  intros Hs. rewrite delete_take_drop.
  rewrite <- (take_drop i l) in Hs.
  apply StronglySorted_app in Hs as (Hcross & H1 & H2).
  apply StronglySorted_app. repeat split; [|done|].
  - intros a b Ha Hb. apply Hcross; [done|].
    rewrite <- (take_drop 1 (drop i l)). rewrite drop_drop.
    apply elem_of_app. right. by replace (i + 1)%nat with (S i) by lia.
  - rewrite <- (take_drop 1 (drop i l)) in H2.
    apply StronglySorted_app in H2 as (_ & _ & H2).
    rewrite drop_drop in H2. by replace (i + 1)%nat with (S i) in H2 by lia.
Qed.

Lemma Forall_delete_keep {A} (P : A -> Prop) (l : list A) (i : nat) :
  Forall P l -> Forall P (delete i l).
Proof.
  intros H. rewrite delete_take_drop. apply Forall_app.
  split; [by apply Forall_take | by apply Forall_drop].
Qed.

Lemma fmap_fst_delete {A B} (l : list (A * B)) (i : nat) :
  (delete i l).*1 = delete i (l.*1).
Proof.
  revert i. induction l as [|a l IH]; intros [|i]; simpl; try done. by rewrite IH.
Qed.

(** In a list of pairs with distinct keys, dropping the entry of a key is
    deleting its position. *)
Lemma filter_key_delete {B} (l : list (Z * B)) (j : nat) (key : Z) (b : B) :
  NoDup (l.*1) -> l !! j = Some (key, b) ->
  filter (fun e => e.1 <> key) l = delete j l.
Proof.
  revert j. induction l as [|[k' b'] l IH]; intros j Hnd Hj; [done|].
  apply NoDup_cons in Hnd as [Hnotin Hnd]. destruct j as [|j]; simpl in *.
  - injection Hj as -> ->. rewrite filter_cons_False by (simpl; tauto).
    assert (G : forall m : list (Z * B), key ∉ m.*1 -> filter (fun e => e.1 <> key) m = m).
    { induction m as [|[k2 b2] m IHm]; intros Hn; [done|]. simpl in Hn.
      apply not_elem_of_cons in Hn as [Hne Hn].
      rewrite filter_cons_True by (simpl; congruence). by rewrite IHm. }
    by apply G.
  - rewrite filter_cons_True.
    + by rewrite (IH j).
    + simpl. intros ->. apply Hnotin.
      apply list_elem_of_fmap. exists (key, b). split; [done|].
      by apply list_elem_of_lookup_2 in Hj.
Qed.

Lemma filter_key_absent {B} (l : list (Z * B)) (key : Z) :
  key ∉ l.*1 -> filter (fun e => e.1 <> key) l = l.
Proof.
  induction l as [|[k2 b2] m IHm]; intros Hn; [done|]. simpl in Hn.
  apply not_elem_of_cons in Hn as [Hne Hn].
  rewrite filter_cons_True by (simpl; congruence). by rewrite IHm.
Qed.

(** [addTouchListener] on a well-formed registry. *)
Lemma addTouchListener_rejects callback s :
  0 <= nextListenerId s ->
  fst (addTouchListener callback s) = -1
  <-> callback = None \/ (MAX_LISTENERS <= listenerCount s)%nat.
Proof.
  intros Hn. unfold addTouchListener.
  destruct callback as [cb|]; cbn [orb].
  - destruct (Nat.leb_spec MAX_LISTENERS (listenerCount s)); cbn [fst].
    + split; auto.
    + split; [lia|]. intros [?|?]; [done|lia].
  - split; auto.
Qed.

Lemma addTouchListener_accepts cb s :
  registry_ok s -> (listenerCount s < MAX_LISTENERS)%nat ->
  let r := addTouchListener (Some cb) s in
  fst r = nextListenerId s
  /\ registered (snd r) = (registered s ++ [(nextListenerId s, Some cb)])%list
  /\ listenerCount (snd r) = S (listenerCount s)
  /\ nextListenerId (snd r) = int32 (nextListenerId s + 1)
  /\ length (listeners (snd r)) = MAX_LISTENERS
  /\ length (listenerIds (snd r)) = MAX_LISTENERS.
Proof.
  intros (Hl1 & Hl2 & Hc & Hn & Hall & Hs) Hlt r. subst r. unfold addTouchListener.
  cbn [orb]. destruct (Nat.leb_spec MAX_LISTENERS (listenerCount s)); [lia|].
  cbn [fst snd]. unfold registered. simpl. rewrite !length_insert.
  repeat split; try done.
  rewrite (take_S_r _ _ (nextListenerId s)) by (apply list_lookup_insert_eq; lia).
  rewrite (take_S_r _ _ (Some cb)) by (apply list_lookup_insert_eq; lia).
  rewrite !take_insert_ge by lia.
  rewrite zip_with_app by (rewrite !length_take; lia). reflexivity.
Qed.

Lemma addTouchListener_ok cb s :
  registry_ok s -> (listenerCount s < MAX_LISTENERS)%nat -> nextListenerId s < INT_MAX ->
  registry_ok (snd (addTouchListener (Some cb) s))
  /\ nextListenerId (snd (addTouchListener (Some cb) s)) = nextListenerId s + 1.
Proof.
  intros Hok Hlt Hmax.
  destruct (addTouchListener_accepts cb s Hok Hlt) as (_ & Hreg & Hcnt & Hnext & Hl1 & Hl2).
  destruct Hok as (Ha & Hb & Hc & Hn & Hall & Hs).
  rewrite int32_small in Hnext by (unfold INT_MAX in *; lia).
  split; [|done]. unfold registry_ok. rewrite Hnext, Hl1, Hl2.
  assert (Hids : take (listenerCount (addTouchListener (Some cb) s).2)
                   (listenerIds (addTouchListener (Some cb) s).2)
                 = (take (listenerCount s) (listenerIds s) ++ [nextListenerId s])%list).
  { rewrite <- registered_ids by lia. rewrite Hreg, fmap_app.
    rewrite registered_ids by lia. reflexivity. }
  rewrite Hids, Hcnt. repeat split; try lia.
  - apply Forall_app. split.
    + eapply Forall_impl; [exact Hall|]. simpl. intros; lia.
    + repeat constructor; lia.
  - apply StronglySorted_app. repeat split; [|done|repeat constructor].
    intros a b Ha' Hb'. apply list_elem_of_singleton in Hb'. subst b.
    rewrite Forall_forall in Hall. apply Hall in Ha'. lia.
Qed.

Lemma removeTouchListener_spec listenerId s :
  registry_ok s ->
  let r := removeTouchListener listenerId s in
  (fst r = true <-> listenerId ∈ (registered s).*1)
  /\ registered (snd r) = filter (fun e => e.1 <> listenerId) (registered s)
  /\ nextListenerId (snd r) = nextListenerId s
  /\ registry_ok (snd r).
Proof.
  intros Hok r. pose proof Hok as (Ha & Hb & Hc & Hn & Hall & Hs).
  assert (Hids : (registered s).*1 = take (listenerCount s) (listenerIds s))
    by (apply registered_ids; lia).
  subst r. unfold removeTouchListener.
  destruct (removeFrom_spec (listenerCount s) 0 listenerId s)
    as [(Hf & Hsame & Hno)|(j & cb & Hj & Hr & Hfirst & Ht & Hreg & Hcnt & Hnext & Hl1 & Hl2)];
    [lia|lia|lia| |]; cbv zeta;
    generalize dependent (removeFrom (listenerCount s) 0 listenerId s); intros r; intros.
  - assert (Hnotin : listenerId ∉ (registered s).*1).
    { rewrite Hids. intros Hin. apply list_elem_of_lookup in Hin as [i Hi].
      apply lookup_take_Some in Hi as [Hi Hlt]. apply (Hno i); [lia|done]. }
    rewrite Hf, Hsame. repeat split; try done.
    by rewrite filter_key_absent.
  - rewrite Ht, Hreg. split; [|split; [|split]].
    + split; [intros _|done]. apply list_elem_of_fmap. exists (listenerId, cb).
      split; [done|]. by apply list_elem_of_lookup_2 in Hr.
    + symmetry. apply (filter_key_delete _ j listenerId cb); [|done].
      rewrite Hids. by apply StronglySorted_lt_NoDup.
    + done.
    + assert (Hids' : take (listenerCount r.2) (listenerIds r.2)
                      = delete j (take (listenerCount s) (listenerIds s))).
      { rewrite <- registered_ids by lia. rewrite Hreg, fmap_fst_delete. by rewrite Hids. }
      unfold registry_ok. rewrite Hids', Hnext, Hl1, Hl2, Hcnt.
      repeat split; try lia.
      * by apply Forall_delete_keep.
      * by apply StronglySorted_delete.
Qed.

Lemma runRegistry_issued ops s :
  registry_ok s ->
  nextListenerId s + Z.of_nat (length ops) <= INT_MAX ->
  StronglySorted Z.lt (fst (runRegistry ops s))
  /\ Forall (fun i => nextListenerId s <= i) (fst (runRegistry ops s))
  /\ registry_ok (snd (runRegistry ops s)).
Proof.
  revert s. induction ops as [|[callback|listenerId] rest IH]; intros s Hok Hmax.
  - simpl. split; [apply SSorted_nil|split; [apply Forall_nil_2|done]].
  - cbn [runRegistry]. cbn [length] in Hmax.
    destruct (addTouchListener callback s) as [r s1] eqn:E.
    destruct (runRegistry rest s1) as [issued s2] eqn:E2.
    destruct (Z.eqb_spec r (-1)) as [Hr|Hr].
    + assert (Hs1 : s1 = s).
      { unfold addTouchListener in E. destruct (_ || _); [by injection E|].
        injection E as E _. destruct Hok as (_ & _ & _ & Hn & _). lia. }
      subst s1. specialize (IH s Hok). rewrite E2 in IH. apply IH. lia.
    + assert (Hacc : exists cb, callback = Some cb /\ (listenerCount s < MAX_LISTENERS)%nat).
      { pose proof (addTouchListener_rejects callback s) as Hrej.
        rewrite E in Hrej. cbn [fst] in Hrej.
        destruct Hok as (_ & _ & _ & Hn & _). specialize (Hrej Hn).
        destruct callback as [cb|]; [|exfalso; apply Hr, Hrej; by left].
        exists cb. split; [done|].
        destruct (Nat.lt_ge_cases (listenerCount s) MAX_LISTENERS) as [?|Hge]; [done|].
        exfalso. apply Hr, Hrej. by right. }
      destruct Hacc as (cb & -> & Hlt).
      destruct (addTouchListener_accepts cb s Hok Hlt) as (Hfst & _).
      destruct (addTouchListener_ok cb s Hok Hlt) as [Hok1 Hnext1]; [lia|].
      rewrite E in Hfst, Hok1, Hnext1. simpl in Hfst, Hok1, Hnext1. subst r.
      specialize (IH s1 Hok1). rewrite E2 in IH. simpl in IH.
      destruct IH as (Hs & Hge & Hok2); [lia|].
      simpl. split; [|split; [constructor; [lia|]|done]].
      * constructor; [done|]. eapply Forall_impl; [exact Hge|]. simpl. intros; lia.
      * eapply Forall_impl; [exact Hge|]. simpl. intros; lia.
  - cbn [runRegistry]. cbn [length] in Hmax.
    destruct (removeTouchListener_spec listenerId s Hok) as (_ & _ & Hnext & Hok1).
    specialize (IH _ Hok1). rewrite Hnext in IH. apply IH. lia.
Qed.

(** C9.  On a well-formed registry whose id counter has not reached the
    largest [int]:
    - [addTouchListener] returns -1 exactly when the callback is empty or 4
      listeners are registered, and then changes nothing;
    - an accepted registration returns a nonnegative id larger than every
      registered id and appends the listener behind the others;
    - over any sequence of registrations and removals the ids handed out are
      strictly increasing, so none is handed out twice, and each is larger
      than every id registered before;
    - [removeTouchListener] returns true exactly when the id is registered,
      and what stays registered is the old sequence without that id, in the
      same order;
    - on a new engine four registrations return 0, 1, 2, 3, a fifth is
      rejected, and removing the second leaves the first, third and fourth in
      that order. *)
Theorem C9_listener_registry (s : DisplaxTouch) (callback : TouchCallback)
    (listenerId : Z) (ops : list RegistryOp) :
  registry_ok s ->
  nextListenerId s + Z.of_nat (length ops) <= INT_MAX ->
  let added := addTouchListener callback s in
  let removed := removeTouchListener listenerId s in
  (added.1 = -1 <-> callback = None \/ (4 <= listenerCount s)%nat)
  /\ (added.1 = -1 -> added.2 = s)
  /\ (added.1 <> -1 ->
      0 <= added.1
      /\ Forall (fun e => e.1 < added.1) (registered s)
      /\ registered added.2 = (registered s ++ [(added.1, callback)])%list)
  /\ (removed.1 = true <-> listenerId ∈ (registered s).*1)
  /\ registered removed.2 = filter (fun e => e.1 <> listenerId) (registered s)
  /\ StronglySorted Z.lt (runRegistry ops s).1
  /\ Forall (fun i => 0 <= i /\ Forall (fun e => e.1 < i) (registered s))
       (runRegistry ops s).1
  /\ forall a b c d e : nat,
       let r1 := addTouchListener (Some a) fresh in
       let r2 := addTouchListener (Some b) r1.2 in
       let r3 := addTouchListener (Some c) r2.2 in
       let r4 := addTouchListener (Some d) r3.2 in
       let r5 := addTouchListener (Some e) r4.2 in
       let rm := removeTouchListener r2.1 r5.2 in
       [r1.1; r2.1; r3.1; r4.1] = [0; 1; 2; 3]
       /\ r5.1 = -1
       /\ rm.1 = true
       /\ registered rm.2 = [(0, Some a); (2, Some c); (3, Some d)].
Proof.
  intros Hok Hmax added removed.
  pose proof Hok as (Hl1 & Hl2 & Hc & Hn & Hall & Hs).
  assert (Hbelow : Forall (fun e : Z * TouchCallback => e.1 < nextListenerId s)
                     (registered s)).
  { apply Forall_fmap with (f := fst) (P := fun i => i < nextListenerId s).
    rewrite registered_ids by lia.
    eapply Forall_impl; [exact Hall|]. simpl. intros; lia. }
  split; [apply (addTouchListener_rejects callback s Hn)|].
  split.
  { intros Hr. apply (addTouchListener_rejects callback s Hn) in Hr.
    subst added. unfold addTouchListener.
    destruct Hr as [->|Hr]; [done|].
    destruct (Nat.leb_spec MAX_LISTENERS (listenerCount s)) as [?|Hlt].
    - by rewrite orb_true_r.
    - lia. }
  split.
  { intros Hr.
    assert (Hacc : exists cb, callback = Some cb /\ (listenerCount s < MAX_LISTENERS)%nat).
    { pose proof (addTouchListener_rejects callback s Hn) as Hrej. fold added in Hrej.
      destruct callback as [cb|]; [|exfalso; apply Hr, Hrej; by left].
      exists cb. split; [done|].
      destruct (Nat.lt_ge_cases (listenerCount s) MAX_LISTENERS) as [?|Hge]; [done|].
      exfalso. apply Hr, Hrej. by right. }
    destruct Hacc as (cb & -> & Hlt).
    destruct (addTouchListener_accepts cb s Hok Hlt) as (Hfst & Hreg & _).
    fold added in Hfst, Hreg. rewrite Hfst. repeat split; try done. }
  destruct (removeTouchListener_spec listenerId s Hok) as (Hrm & Hreg & _ & _).
  split; [exact Hrm|]. split; [exact Hreg|].
  destruct (runRegistry_issued ops s Hok Hmax) as (Hsorted & Hge & _).
  split; [exact Hsorted|]. split.
  { eapply Forall_impl; [exact Hge|]. simpl. intros i Hi. split; [lia|].
    eapply Forall_impl; [exact Hbelow|]. simpl. intros; lia. }
  intros a b c d e. vm_compute. repeat split; reflexivity.
Qed.

(** ** The sample frame, end to end *)

(** One pass over the sample frame: one contact with the encoded fields, the
    scan time, the whole frame consumed, and the registered listener called
    once with the new contact set. *)
Example sample_frame_decoded :
  let s := loop 3 (receive sampleFrame (addTouchListener (Some 9%nat) fresh).2) in
  getTouchCount s = 1%nat
  /\ getTouch 0 s = TouchPoint.mk 3 0x0234 0x0156 12 9 0x0102 1050 650 true
  /\ getScanTime s = 0x2710
  /\ rxBufferSize s = 0%nat
  /\ trace s = [TouchesDelivered (Some 9%nat) (touches s) 1]
  /\ getTouchCount (clearTouches s) = 0%nat.
Proof. vm_compute. repeat split; reflexivity. Qed.

(** Four listeners, the second one removed: the next report reaches the
    other three, in registration order. *)
Example sample_frame_notifies_remaining :
  let r1 := addTouchListener (Some 11%nat) fresh in
  let r2 := addTouchListener (Some 12%nat) r1.2 in
  let r3 := addTouchListener (Some 13%nat) r2.2 in
  let r4 := addTouchListener (Some 14%nat) r3.2 in
  let s := loop 3 (receive sampleFrame (removeTouchListener r2.1 r4.2).2) in
  trace s = [TouchesDelivered (Some 11%nat) (touches s) 1;
             TouchesDelivered (Some 13%nat) (touches s) 1;
             TouchesDelivered (Some 14%nat) (touches s) 1].
Proof. vm_compute. reflexivity. Qed.

(** The frame with a flipped CRC byte: one byte skipped, 71 left. *)
Example corrupted_frame_rejected :
  let s := loop 3 (receive corruptedFrame fresh) in
  state s = SYNCHRONIZING /\ buffered s = drop 1 corruptedFrame /\ getTouchCount s = 0%nat.
Proof. vm_compute. repeat split; reflexivity. Qed.

(** ** Instances of the theorems on the sample inputs *)

Lemma C1_witness :
  state timedOut = INITIALIZATION_FAILED
  /\ (forall now, checkTimeout now timedOut = timedOut)
  /\ (forall now, state (begin now timedOut) = INITIALIZING).
Proof.
  assert (H : state timedOut = INITIALIZATION_FAILED) by (vm_compute; reflexivity).
  destruct (C1_failed_state_still_dispatches timedOut H) as (A & _ & _ & _ & _ & B).
  exact (conj H (conj A B)).
Defined.

Lemma C2_witness :
  let s := holding (corruptedFrame ++ [0x55; 0x66]) in
  buffer_ok s
  /\ (72 <= rxBufferSize s)%nat
  /\ byteAt (rxBuffer s) 0 = 0x04
  /\ byteAt (rxBuffer s) 1 = 0x00
  /\ storedCrcAt (rxBuffer s) 68 <> calculateCRC32 (rxBuffer s) 68
  /\ buffered (processStreamData 0 (rxBuffer s) (rxBufferSize s) s) = drop 1 (buffered s)
  /\ state (processStreamData 0 (rxBuffer s) (rxBufferSize s) s) = SYNCHRONIZING.
Proof.
  intros s.
  assert (H1 : buffer_ok s) by (apply Nat.leb_le; vm_compute; reflexivity).
  assert (H2 : (72 <= rxBufferSize s)%nat) by (apply Nat.leb_le; vm_compute; reflexivity).
  assert (H3 : byteAt (rxBuffer s) 0 = 0x04) by (vm_compute; reflexivity).
  assert (H4 : byteAt (rxBuffer s) 1 = 0x00) by (vm_compute; reflexivity).
  assert (H5 : storedCrcAt (rxBuffer s) 68 <> calculateCRC32 (rxBuffer s) 68)
    by (vm_compute; intros E; discriminate E).
  destruct (C2_rejected_report_skips_one_byte 0 s H1 H2 H3 H4 (or_intror (or_intror H5)))
    as (_ & _ & A & B).
  exact (conj H1 (conj H2 (conj H3 (conj H4 (conj H5 (conj A B)))))).
Defined.

Lemma C3_witness :
  let s := resyncing [0x09; 0x09; 0x04; 0x00; 0x40; 0x00; 0x07] in
  buffer_ok s
  /\ state s = SYNCHRONIZING
  /\ firstMarkerAt (buffered s) 2
  /\ state (synchronize s) = SYNCHRONIZED
  /\ buffered (synchronize s) = drop 2 (buffered s).
Proof.
  intros s.
  assert (H1 : buffer_ok s) by (apply Nat.leb_le; vm_compute; reflexivity).
  assert (H2 : state s = SYNCHRONIZING) by (vm_compute; reflexivity).
  assert (H3 : firstMarkerAt (buffered s) 2).
  { split.
    - repeat split; vm_compute; reflexivity.
    - intros j Hj (Hm & _). destruct j as [|[|j]]; [| |lia]; vm_compute in Hm; discriminate Hm. }
  assert (H4 : (4 <= rxBufferSize s)%nat) by (apply Nat.leb_le; vm_compute; reflexivity).
  destruct (C3_synchronize s H1 H2) as (_ & _ & A & _).
  destruct (A 2%nat H4 (Nat.lt_0_succ 1) H3) as (B & _ & C).
  exact (conj H1 (conj H2 (conj H3 (conj B C)))).
Defined.

Lemma C4_witness :
  0 <= 800 < 65536 /\ 0 <= 600 < 65536
  /\ getFrameWidth (setFrameSize 800 600 fresh) = 800
  /\ getFrameHeight (setFrameSize 800 600 fresh) = 600.
Proof.
  assert (H1 : 0 <= 800 < 65536) by lia.
  assert (H2 : 0 <= 600 < 65536) by lia.
  destruct (C4_frame_size_last_writer_wins 800 600 fresh H1 H2) as ((A & B) & _).
  exact (conj H1 (conj H2 (conj A B))).
Defined.

Lemma C5_witness :
  let s := holding sampleFrame in
  let s' := processTouchReport (rxBuffer s) (rxBufferSize s) s in
  buffer_ok s
  /\ length (touches s) = MAX_TOUCHES
  /\ (72 <= rxBufferSize s)%nat
  /\ headerAt (rxBuffer s) 0 = true
  /\ le16 (byteAt (rxBuffer s) 2) (byteAt (rxBuffer s) 3) = 64
  /\ verifyCRC (rxBuffer s) = true
  /\ getTouchCount s' = 1%nat
  /\ getTouch 0 s' = slotPoint (rxBuffer s) 1050 650 0
  /\ getScanTime s' = le16 (byteAt (rxBuffer s) 66) (byteAt (rxBuffer s) 67)
  /\ getTouchCount (clearTouches s') = 0%nat.
Proof.
  intros s s'.
  assert (H1 : buffer_ok s) by (apply Nat.leb_le; vm_compute; reflexivity).
  assert (H2 : length (touches s) = MAX_TOUCHES) by (vm_compute; reflexivity).
  assert (H3 : (72 <= rxBufferSize s)%nat) by (apply Nat.leb_le; vm_compute; reflexivity).
  assert (H4 : headerAt (rxBuffer s) 0 = true) by (vm_compute; reflexivity).
  assert (H5 : le16 (byteAt (rxBuffer s) 2) (byteAt (rxBuffer s) 3) = 64)
    by (vm_compute; reflexivity).
  assert (H6 : verifyCRC (rxBuffer s) = true) by (vm_compute; reflexivity).
  assert (E : byteAt (rxBuffer s) 65 = 1) by (vm_compute; reflexivity).
  assert (H7 : 1 <= byteAt (rxBuffer s) 65) by (rewrite E; lia).
  assert (H8 : slotStatus (rxBuffer s) 0 <> 0) by (vm_compute; intros E0; discriminate E0).
  assert (H9 : forall i, (1 <= i)%nat -> Z.of_nat i < byteAt (rxBuffer s) 65 ->
                         slotStatus (rxBuffer s) i = 0) by (rewrite E; lia).
  destruct (C5_decode_touch_report s H1 H2 H3 H4 H5 H6) as (_ & _ & _ & A & _ & _ & B & C).
  destruct (B H7 H8 H9) as (B1 & B2).
  exact (conj H1 (conj H2 (conj H3 (conj H4 (conj H5 (conj H6
          (conj B1 (conj B2 (conj A C))))))))).
Defined.

Lemma C6_witness :
  let s := receive (replicate 2048 0xAA) fresh in
  rx_ok s
  /\ (RX_BUFFER_SIZE <= rxBufferSize s + length (Stream.incoming (stream s)))%nat
  /\ rxBufferSize (loop 5 s) = 0%nat
  /\ state (loop 5 s) = SYNCHRONIZING.
Proof.
  intros s.
  assert (H1 : rx_ok s)
    by (split; [vm_compute; reflexivity | apply Nat.leb_le; vm_compute; reflexivity]).
  assert (H2 : (RX_BUFFER_SIZE <= rxBufferSize s + length (Stream.incoming (stream s)))%nat)
    by (apply Nat.leb_le; vm_compute; reflexivity).
  destruct (C6_overflow_forces_resync 5 s H1 H2) as (A & _ & B & _).
  exact (conj H1 (conj H2 (conj A B))).
Defined.

Lemma C7_witness :
  let s := holding [0x01; 0x02; 0x03; 0x04; 0x05] in
  buffer_ok s
  /\ Z.of_nat (rxBufferSize (consumeBuffer 2 s))
     = Z.max 0 (Z.of_nat (rxBufferSize s) - Z.of_nat 2)
  /\ buffered (consumeBuffer 2 s) = drop 2 (buffered s).
Proof.
  intros s.
  assert (H1 : buffer_ok s) by (apply Nat.leb_le; vm_compute; reflexivity).
  destruct (C7_consumeBuffer_suffix 2 s H1) as (A & _ & B & _).
  exact (conj H1 (conj A B)).
Defined.

Lemma C9_witness :
  let ops := [AddListener (Some 1%nat); AddListener None; RemoveListener 0;
              AddListener (Some 2%nat)] in
  registry_ok fresh
  /\ nextListenerId fresh + Z.of_nat (length ops) <= INT_MAX
  /\ ((addTouchListener None fresh).1 = -1 <->
      @None nat = None \/ (4 <= listenerCount fresh)%nat)
  /\ StronglySorted Z.lt (runRegistry ops fresh).1.
Proof.
  intros ops.
  assert (H1 : registry_ok fresh).
  { unfold registry_ok. change (listenerCount fresh) with 0%nat.
    change (nextListenerId fresh) with 0. rewrite take_0.
    repeat split; try reflexivity; try lia; try constructor. }
  assert (H2 : nextListenerId fresh + Z.of_nat (length ops) <= INT_MAX)
    by (vm_compute; intros E; discriminate E).
  destruct (C9_listener_registry fresh None 0 ops H1 H2) as (A & _ & _ & _ & _ & B & _).
  exact (conj H1 (conj H2 (conj A B))).
Defined.
